(** * Vehicle listings dashboard: the cleaning routine and the chart builders

    A shallow embedding of [app.py]: the in-place cleaning of the listings
    frame ([cleaning]) and the three chart builders ([plot_scatter],
    [plot_condition_mean], [plot_type_mean]), together with the properties
    of the specification that concern them.

    Conventions of the embedding.
    - A cell is a Python object: the missing marker, an [int], a [float]
      (a rational when finite, or one of the two infinities), a [str] or a
      timestamp.  An integer column holds 64-bit integers: [astype(int)]
      refuses an integer that does not fit and wraps a float that does not,
      as the cast of a float column does.
    - Floating-point arithmetic is not re-implemented: the mean that
      [groupby(...).mean()] computes in binary64 is a parameter, of which
      only exactness on small integers is ever assumed.
    - A frame is the list of its rows, in index order; a row carries the ten
      columns the program reads or writes.
    - The program assigns to the columns of the frame object it was given:
      frames live in a heap and are named by references.
    - The two parsers of the libraries the program calls (the date parser
      behind [pd.to_datetime] and Python's [int] on strings) are parameters
      of the development.
    - A scatter chart is described by its traces, one per condition, and the
      plotting library's check of the marker sizes is part of the builder. *)

From Stdlib Require Import ZArith QArith Qround String Ascii List Sorted.
From Stdlib Require Import Lia.
From stdpp Require Import gmap strings list.
Import ListNotations.

Local Open Scope Z_scope.
Local Open Scope string_scope.
Local Open Scope list_scope.

(** ** Cells *)

Inductive value : Type :=
| NaN                     (* the missing marker: NaN, None, NaT *)
| Int (z : Z)
| Float (q : Q)           (* a finite float *)
| Inf (negative : bool)   (* an infinite float *)
| Str (s : string)
| Timestamp (ns : Z).

Definition isna (v : value) : bool :=
  match v with NaN => true | _ => false end.

Definition notna (v : value) : bool := negb (isna v).

(** The numeric reading of a cell, when it is a number. *)
Definition as_number (v : value) : option Q :=
  match v with
  | Int z => Some (inject_Z z)
  | Float q => Some q
  | _ => None
  end.

Definition is_number (v : value) : bool :=
  match as_number v with Some _ => true | None => false end.

(** Sort rank of the kinds of cells: numbers, between the two infinities,
    come before strings, strings before timestamps, the missing marker
    last. *)
Definition kind_rank (v : value) : nat :=
  match v with
  | Inf true => 0
  | Int _ | Float _ => 1
  | Inf false => 2
  | Str _ => 3
  | Timestamp _ => 4
  | NaN => 5
  end%nat.

(** Three-way comparison of cells: numbers by value (so that [1] and [1.0]
    are equal), strings lexicographically, timestamps by instant. *)
Definition value_compare (v w : value) : comparison :=
  match as_number v, as_number w with
  | Some a, Some b => Qcompare a b
  | _, _ =>
    match v, w with
    | Str a, Str b => String.compare a b
    | Timestamp a, Timestamp b => Z.compare a b
    | _, _ => Nat.compare (kind_rank v) (kind_rank w)
    end
  end.

Definition key_lt (a b : value) : Prop := value_compare a b = Lt.

(** Python's [==] on cells: the missing marker equals nothing, itself
    included. *)
Definition value_eqb (v w : value) : bool :=
  notna v && notna w &&
  match value_compare v w with Eq => true | _ => false end.

(** Truncation toward zero, as [int(x)] does on a float. *)
Definition Qtruncate (q : Q) : Z := Z.quot (Qnum q) (Zpos (Qden q)).

(** The 64-bit integers. *)
Definition int64_min : Z := - 2 ^ 63.
Definition int64_max : Z := 2 ^ 63 - 1.

Definition in_int64 (z : Z) : bool :=
  (int64_min <=? z)%Z && (z <=? int64_max)%Z.

(** The cast of a finite float to a 64-bit integer: the truncation when it
    fits, the least 64-bit integer when it does not. *)
Definition float_to_int64 (q : Q) : Z :=
  if in_int64 (Qtruncate q) then Qtruncate q else int64_min.

(** ** Series operations, cell by cell *)

(** [Series.replace(mapping)]: the first entry of the mapping whose key
    matches the cell gives the new cell; a missing key matches the missing
    cells. *)
Definition key_matches (key v : value) : bool :=
  if isna key then isna v else value_eqb v key.

Definition replace_cell (mapping : list (value * value)) (v : value) : value :=
  match List.find (fun kv => key_matches (fst kv) v) mapping with
  | Some kv => snd kv
  | None => v
  end.

Definition replace (mapping : list (value * value)) (s : list value)
  : list value :=
  List.map (replace_cell mapping) s.

(** [Series.fillna(fill)]. *)
Definition fillna_cell (fill v : value) : value :=
  if isna v then fill else v.

Definition fillna (fill : value) (s : list value) : list value :=
  List.map (fillna_cell fill) s.

(** ** Sorted lists of distinct keys *)

Fixpoint insert_key (k : value) (l : list value) : list value :=
  match l with
  | [] => [k]
  | x :: l' =>
    match value_compare k x with
    | Lt => k :: l
    | Eq => l
    | Gt => x :: insert_key k l'
    end
  end.

(** The distinct non-missing cells of a series, in increasing order; of
    equal cells the first occurrence is kept. *)
Definition unique_sorted (s : list value) : list value :=
  List.fold_left (fun acc k => insert_key k acc) (List.filter notna s) [].

(** ** [Series.mode()] *)

Definition count_eq (v : value) (s : list value) : nat :=
  List.length (List.filter (value_eqb v) s).

Definition max_count (s : list value) : nat :=
  List.fold_right (fun v m => Nat.max (count_eq v s) m) 0%nat s.

(** The most frequent non-missing cells, in increasing order. *)
Definition mode (s : list value) : list value :=
  let xs := List.filter notna s in
  unique_sorted
    (List.filter (fun v => Nat.eqb (count_eq v xs) (max_count xs)) xs).

(** ** Rows and frames *)

Inductive column : Type :=
| is_4wd | odometer | cylinders | model_year | paint_color
| date_posted | price | condition | type | model.

Record row : Type := mkRow {
  r_is_4wd : value;
  r_odometer : value;
  r_cylinders : value;
  r_model_year : value;
  r_paint_color : value;
  r_date_posted : value;
  r_price : value;
  r_condition : value;
  r_type : value;
  r_model : value
}.

Definition get (c : column) (r : row) : value :=
  match c with
  | is_4wd => r_is_4wd r
  | odometer => r_odometer r
  | cylinders => r_cylinders r
  | model_year => r_model_year r
  | paint_color => r_paint_color r
  | date_posted => r_date_posted r
  | price => r_price r
  | condition => r_condition r
  | type => r_type r
  | model => r_model r
  end.

Definition set (c : column) (v : value) (r : row) : row :=
  match r with
  | mkRow a b c0 d e f g h i j =>
    match c with
    | is_4wd => mkRow v b c0 d e f g h i j
    | odometer => mkRow a v c0 d e f g h i j
    | cylinders => mkRow a b v d e f g h i j
    | model_year => mkRow a b c0 v e f g h i j
    | paint_color => mkRow a b c0 d v f g h i j
    | date_posted => mkRow a b c0 d e v g h i j
    | price => mkRow a b c0 d e f v h i j
    | condition => mkRow a b c0 d e f g v i j
    | type => mkRow a b c0 d e f g h v j
    | model => mkRow a b c0 d e f g h i v
    end
  end.

Definition frame : Type := list row.

(** [data[c]]: the column as a series. *)
Definition col (c : column) (t : frame) : list value := List.map (get c) t.

(** [data[c] = s]: assignment aligns the series with the frame's index; a
    row the series has no entry for receives the missing marker. *)
Fixpoint assign (c : column) (s : list value) (t : frame) : frame :=
  match t with
  | [] => []
  | r :: t' => set c (List.hd NaN s) r :: assign c (List.tl s) t'
  end.

(** ** [groupby(key)[c].transform(f)]

    The rows whose key is missing belong to no group.  Every other row
    belongs to the group of the rows with an equal key; [f] is applied to
    the series of each group and a row receives the entry of its group's
    result at the row's position within the group.  Rows outside every
    group (and positions a result has no entry for) receive the missing
    marker. *)

Definition group (key : column) (k : value) (t : frame) : frame :=
  List.filter (fun r => value_eqb (get key r) k) t.

Fixpoint transform_from (key c : column) (f : list value -> list value)
    (t before rest : frame) : list value :=
  match rest with
  | [] => []
  | r :: rest' =>
    (if isna (get key r) then NaN
     else List.nth (List.length (group key (get key r) before))
                   (f (col c (group key (get key r) t))) NaN)
    :: transform_from key c f t (before ++ [r]) rest'
  end.

Definition groupby_transform (key c : column) (f : list value -> list value)
    (t : frame) : list value :=
  transform_from key c f t [] t.

(** ** The heap of frames and the monad of the program *)

Definition loc : Type := nat.

Inductive exn : Type :=
| ParseError          (* a date that cannot be parsed *)
| TypeCoercionError   (* a cell that cannot be converted to an integer *)
| TypeError           (* an aggregation over cells that are not numbers *)
| ValueError          (* a marker size the plotting library refuses *)
| NameError.          (* a reference that names no frame *)

(** Both failures of the cleaning are cleaning errors. *)
Definition CleaningError (e : exn) : bool :=
  match e with
  | ParseError | TypeCoercionError => true
  | _ => false
  end.

Inductive outcome (A : Type) : Type :=
| Return (a : A)
| Raise (e : exn).
Arguments Return {A} a.
Arguments Raise {A} e.

Definition M (A : Type) : Type :=
  gmap loc frame -> gmap loc frame * outcome A.

Definition ret {A} (a : A) : M A := fun h => (h, Return a).

Definition raise {A} (e : exn) : M A := fun h => (h, Raise e).

Definition bind {A B} (m : M A) (k : A -> M B) : M B :=
  fun h =>
    match m h with
    | (h', Return a) => k a h'
    | (h', Raise e) => (h', Raise e)
    end.

Declare Scope prog_scope.
Delimit Scope prog_scope with prog.
Notation "x <- m ;; k" := (bind m (fun x => k))
  (at level 100, m at next level, right associativity) : prog_scope.
Notation "m ;;; k" := (bind m (fun _ => k))
  (at level 100, right associativity) : prog_scope.

(** [data[c]] read through the reference. *)
Definition getitem (data : loc) (c : column) : M (list value) :=
  fun h =>
    match h !! data with
    | Some t => (h, Return (col c t))
    | None => (h, Raise NameError)
    end.

(** [data[c] = s]: the frame object itself is updated. *)
Definition setitem (data : loc) (c : column) (s : list value) : M unit :=
  fun h =>
    match h !! data with
    | Some t => (<[data := assign c s t]> h, Return tt)
    | None => (h, Raise NameError)
    end.

Definition transform (data : loc) (key c : column)
    (f : list value -> list value) : M (list value) :=
  fun h =>
    match h !! data with
    | Some t => (h, Return (groupby_transform key c f t))
    | None => (h, Raise NameError)
    end.

(** A conversion of a whole series fails as soon as one cell fails. *)
Definition convert (e : exn) (f : value -> option value) (s : list value)
  : M (list value) :=
  match mapM f s with
  | Some s' => ret s'
  | None => raise e
  end.

Section Cleaning.

(** The date parser behind [pd.to_datetime], from a string to an instant,
    and Python's [int] on a string. *)
Variable parse_datetime : string -> option Z.
Variable int_of_string : string -> option Z.

(** [pd.to_datetime] on one cell: a missing cell stays missing, an instant
    is kept, a finite number is read as an instant, an infinite one is
    refused, a string goes through the parser. *)
Definition to_datetime_cell (v : value) : option value :=
  match v with
  | NaN => Some NaN
  | Timestamp ns => Some (Timestamp ns)
  | Int z => Some (Timestamp z)
  | Float q => Some (Timestamp (Qtruncate q))
  | Inf _ => None
  | Str s =>
    match parse_datetime s with
    | Some ns => Some (Timestamp ns)
    | None => None
    end
  end.

Definition to_datetime : list value -> M (list value) :=
  convert ParseError to_datetime_cell.

(** [astype(int)] on one cell, to a 64-bit integer: a finite float is cast
    (truncated toward zero when the result fits), a string goes through
    [int]; an integer that does not fit is refused, and so are a missing
    cell, an infinite float and an instant. *)
Definition astype_int_cell (v : value) : option value :=
  match v with
  | Int z => if in_int64 z then Some (Int z) else None
  | Float q => Some (Int (float_to_int64 q))
  | Str s =>
    match int_of_string s with
    | Some z => if in_int64 z then Some (Int z) else None
    | None => None
    end
  | NaN | Inf _ | Timestamp _ => None
  end.

Definition astype_int : list value -> M (list value) :=
  convert TypeCoercionError astype_int_cell.

(** The function of line 38:
    [lambda x: x.fillna(x.mode()[0] if not x.mode().empty else np.nan)]. *)
Definition fill_with_mode (x : list value) : list value :=
  fillna (match mode x with m :: _ => m | [] => NaN end) x.

Local Open Scope prog_scope.

(** Lines 26-34: the marker of [is_4wd] is spelled out and the missing
    cells of four columns are filled. *)
Definition fill_missing (data : loc) : M unit :=
  s <- getitem data is_4wd ;;
  setitem data is_4wd (replace [(Int 1, Str "Yes"); (NaN, Str "No")] s) ;;;
  s <- getitem data odometer ;;
  setitem data odometer (fillna (Int 0) s) ;;;
  s <- getitem data cylinders ;;
  setitem data cylinders (fillna (Int 0) s) ;;;
  s <- getitem data model_year ;;
  setitem data model_year (fillna (Int 0) s) ;;;
  s <- getitem data paint_color ;;
  setitem data paint_color (fillna (Str "random") s).

(** Lines 37-39: [cylinders] is filled again, with the mode of the model. *)
Definition refill_cylinders (data : loc) : M unit :=
  s <- transform data model cylinders fill_with_mode ;;
  setitem data cylinders s.

(** Lines 45-48: dates are parsed, three columns become integers. *)
Definition change_types (data : loc) : M unit :=
  s <- getitem data date_posted ;;
  d <- to_datetime s ;;
  setitem data date_posted d ;;;
  s <- getitem data odometer ;;
  n <- astype_int s ;;
  setitem data odometer n ;;;
  s <- getitem data cylinders ;;
  n <- astype_int s ;;
  setitem data cylinders n ;;;
  s <- getitem data model_year ;;
  n <- astype_int s ;;
  setitem data model_year n.

(** [cleaning(data)]: the three blocks in order; the frame given is the
    frame returned. *)
Definition cleaning (data : loc) : M loc :=
  fill_missing data ;;;
  refill_cylinders data ;;;
  change_types data ;;;
  ret data.

End Cleaning.

(** ** [groupby(key, as_index=False)[c].mean()] *)

Definition is_float_like (v : value) : bool :=
  match v with
  | Int _ | Float _ | Inf _ => true
  | _ => false
  end.

(** ** Chart specifications *)

Inductive orientation : Type := Vertical | Horizontal.

(** A bar chart: one bar per entry (category, length). *)
Record bar_figure : Type := mkBar {
  bars : list (value * value);
  bar_orientation : orientation;
  bar_title : string;
  bar_labels : list (column * string);
  marker_color : option string
}.

Definition update_traces (color : string) (fig : bar_figure) : bar_figure :=
  mkBar (bars fig) (bar_orientation fig) (bar_title fig) (bar_labels fig)
        (Some color).

Section Aggregation.

(** The mean of a non-empty series of numbers as the library computes it,
    in binary64. *)
Variable float_mean : list value -> value.

(** The mean of a series skips the missing cells; with no number left it is
    missing.  A cell that is neither a number nor missing makes the
    aggregation fail. *)
Definition mean (x : list value) : outcome value :=
  if List.forallb (fun v => isna v || is_float_like v) x then
    match List.filter notna x with
    | [] => Return NaN
    | ns => Return (float_mean ns)
    end
  else Raise TypeError.

(** One aggregate per key of [keys], in that order. *)
Fixpoint aggregate (key c : column) (t : frame) (keys : list value)
  : outcome (list (value * value)) :=
  match keys with
  | [] => Return []
  | k :: keys' =>
    match mean (col c (group key k t)) with
    | Raise e => Raise e
    | Return m =>
      match aggregate key c t keys' with
      | Raise e => Raise e
      | Return rest => Return ((k, m) :: rest)
      end
    end
  end.

(** The groups are the distinct non-missing keys, in increasing order; the
    result has one row (key, mean) per group. *)
Definition groupby_mean (key c : column) (t : frame)
  : outcome (list (value * value)) :=
  aggregate key c t (unique_sorted (col key t)).

(** [plot_condition_mean(data)]. *)
Definition plot_condition_mean (data : frame) : outcome bar_figure :=
  match groupby_mean condition price data with
  | Raise e => Raise e
  | Return cond_mean =>
    let fig :=
      mkBar cond_mean Vertical
            "Precio promedio según condición del vehículo"
            [(condition, "Condición"); (price, "Precio promedio (USD)")]
            None in
    Return (update_traces "skyblue" fig)
  end.

(** [plot_type_mean(data)]. *)
Definition plot_type_mean (data : frame) : outcome bar_figure :=
  match groupby_mean type price data with
  | Raise e => Raise e
  | Return type_mean =>
    let fig :=
      mkBar type_mean Horizontal
            "Precio promedio por tipo de vehículo"
            [(type, "Tipo de vehículo"); (price, "Precio promedio (USD)")]
            None in
    Return (update_traces "coral" fig)
  end.

End Aggregation.

(** *** The scatter chart *)

Record point : Type := mkPoint {
  pt_x : value;
  pt_y : value;
  pt_color : value;
  pt_size : value;
  pt_hover : list value
}.

(** A trace: the points of one colour, under the name of the colour. *)
Record trace : Type := mkTrace {
  trace_name : value;
  trace_points : list point
}.

Record scatter_figure : Type := mkScatter {
  traces : list trace;
  scatter_title : string;
  scatter_labels : list (column * string);
  opacity : Q
}.

(** The points of a chart, trace after trace. *)
Definition points (fig : scatter_figure) : list point :=
  List.concat (List.map trace_points (traces fig)).

(** The distinct present cells of a series, in the order in which they
    first appear. *)
Fixpoint first_seen (seen s : list value) : list value :=
  match s with
  | [] => []
  | v :: s' =>
    if isna v || List.existsb (value_eqb v) seen then first_seen seen s'
    else v :: first_seen (v :: seen) s'
  end.

Definition appearance_order (s : list value) : list value := first_seen [] s.

(** The sizes the plotting library accepts for a marker: the numbers that
    are not negative. *)
Definition size_ok (v : value) : bool :=
  match v with
  | Int z => (0 <=? z)%Z
  | Float q => Qle_bool 0 q
  | Inf negative => negb negative
  | _ => false
  end.

Definition point_of (r : row) : point :=
  mkPoint (get odometer r) (get price r) (get condition r)
          (get model_year r) [get model r; get type r].

(** [plot_scatter(data)]: [color="condition"] makes one trace per
    condition, in the order in which the conditions first appear, with the
    rows of that condition in row order; a row without condition is in no
    trace.  The library refuses the chart, with a [ValueError], when the
    size of a point is not a number or is negative. *)
Definition plot_scatter (data : frame) : outcome scatter_figure :=
  let by_condition :=
    List.map (fun k => mkTrace k (List.map point_of (group condition k data)))
             (appearance_order (col condition data)) in
  if List.forallb
       (fun tr => List.forallb (fun p => size_ok (pt_size p)) (trace_points tr))
       by_condition
  then
    Return
      (mkScatter
         by_condition
         "Relación entre kilometraje, precio y condición del vehículo"
         [(odometer, "Kilometraje recorrido");
          (price, "Precio (USD)");
          (condition, "Condición del vehículo");
          (model_year, "Año del modelo")]
         (6 # 10))
  else Raise ValueError.

(** ** Sample instances

    A mean that is exact, for running the builders on examples. *)

Definition Qsum (l : list Q) : Q := List.fold_right Qplus 0%Q l.

Definition sample_mean (x : list value) : value :=
  match omap as_number x with
  | [] => NaN
  | ns => Float (Qred (Qsum ns / inject_Z (Z.of_nat (List.length ns))))
  end.

(** Two concrete parsers: dates written [YYYY-MM-DD] and integers written
    in decimal. *)

Definition digit (a : ascii) : option Z :=
  let n := Z.of_N (N_of_ascii a) in
  if ((48 <=? n)%Z && (n <=? 57)%Z)%bool then Some (n - 48) else None.

Fixpoint digits (acc : Z) (s : string) : option Z :=
  match s with
  | EmptyString => Some acc
  | String a s' =>
    match digit a with
    | Some d => digits (10 * acc + d) s'
    | None => None
    end
  end.

Definition decimal_int (s : string) : option Z :=
  match s with
  | EmptyString => None
  | String "-" EmptyString => None
  | String "-" s' => Z.opp <$> digits 0 s'
  | _ => digits 0 s
  end.

(** Days from 1970-01-01 to the given civil date. *)
Definition days_from_civil (y m d : Z) : Z :=
  let y' := if (m <=? 2)%Z then y - 1 else y in
  let era := y' / 400 in
  let yoe := y' - era * 400 in
  let mp := (m + 9) mod 12 in
  let doy := (153 * mp + 2) / 5 + d - 1 in
  let doe := yoe * 365 + yoe / 4 - yoe / 100 + doy in
  era * 146097 + doe - 719468.

Definition iso_date (s : string) : option Z :=
  if negb (Nat.eqb (String.length s) 10) then None
  else if negb (String.eqb (substring 4 1 s) "-") then None
  else if negb (String.eqb (substring 7 1 s) "-") then None
  else
    match digits 0 (substring 0 4 s), digits 0 (substring 5 2 s),
          digits 0 (substring 8 2 s) with
    | Some y, Some m, Some d =>
      if ((1 <=? m)%Z && (m <=? 12)%Z && (1 <=? d)%Z && (d <=? 31)%Z)%bool
      then Some (days_from_civil y m d * 86400000000000)
      else None
    | _, _, _ => None
    end.

Definition sample_cleaning : loc -> M loc := cleaning iso_date decimal_int.

(** A raw row as the loader produces it for a complete listing. *)
Definition listing (four_wd odo cyl year : value) (color date : value)
    (p : Z) (cond ty mdl : string) : row :=
  mkRow four_wd odo cyl year color date (Int p) (Str cond) (Str ty) (Str mdl).

(** ** Sample frames *)

(** Two listings: a complete one with the marker of four-wheel drive, and
    one with the five fillable cells missing. *)
Definition t_demo : frame :=
  [ listing (Float 1) (Float 145000) (Float 6) (Float 2011) (Str "black")
            (Str "2018-06-23") 9400 "good" "SUV" "bmw x5";
    listing NaN NaN NaN NaN NaN (Str "2018-10-19") 25500 "good" "pickup"
            "ford f-150" ].

(** A listing whose [is_4wd] is written 0 rather than left empty. *)
Definition t_two_wd : frame :=
  [ listing (Float 0) (Float 145000) (Float 6) (Float 2011) (Str "black")
            (Str "2018-06-23") 9400 "good" "SUV" "bmw x5" ].

(** A listing whose model was left empty. *)
Definition t_no_model : frame :=
  [ mkRow (Float 1) (Float 145000) (Float 6) (Float 2011) (Str "black")
          (Str "2018-06-23") (Int 9400) (Str "good") (Str "SUV") NaN ].

(** A listing whose date is not a date. *)
Definition t_bad_date : frame :=
  [ listing (Float 1) (Float 145000) (Float 6) (Float 2011) (Str "black")
            (Str "not-a-date") 9400 "good" "SUV" "bmw x5" ].

(** A listing with a fractional odometer reading. *)
Definition t_fractional : frame :=
  [ listing (Float 1) (Float (3 # 2)) (Float 6) (Float 2011) (Str "black")
            (Str "2018-06-23") 9400 "good" "SUV" "bmw x5" ].


(** Three listings of two conditions, the two of one condition apart. *)
Definition t_market : frame :=
  [ listing (Float 1) (Float 145000) (Float 6) (Float 2011) (Str "black")
            (Str "2018-06-23") 100 "good" "SUV" "bmw x5";
    listing NaN (Float 60000) (Float 4) (Float 2015) (Str "red")
            (Str "2018-07-02") 900 "fair" "sedan" "kia rio";
    listing NaN (Float 98000) (Float 6) (Float 2013) NaN
            (Str "2018-10-19") 200 "good" "SUV" "bmw x5" ].

(** The same with a listing that names no condition and one that names no
    type. *)
Definition t_missing_keys : frame :=
  t_market
  ++ [ mkRow NaN (Float 30000) (Float 4) (Float 2017) (Str "white")
             (Str "2018-11-05") (Int 500) NaN (Str "sedan") (Str "kia rio");
       mkRow NaN (Float 12000) (Float 6) (Float 2019) (Str "grey")
             (Str "2018-12-01") (Int 300) (Str "good") NaN (Str "bmw x5") ].

(** A listing with a negative model year. *)
Definition t_negative_year : frame :=
  [ listing (Float 1) (Float 145000) (Float 6) (Float (-5)) (Str "black")
            (Str "2018-06-23") 9400 "good" "SUV" "bmw x5" ].

Definition heap_of (t : frame) : gmap loc frame := {[ 0%nat := t ]}.

(** ** The cleaning as a function of the frame's contents

    What the statements of [cleaning] do to the frame they are given,
    without the heap: these are proved below to describe [cleaning]. *)

(** Lines 26-34 on one row. *)
Definition fill_row (r : row) : row :=
  set paint_color (fillna_cell (Str "random") (get paint_color r))
    (set model_year (fillna_cell (Int 0) (get model_year r))
       (set cylinders (fillna_cell (Int 0) (get cylinders r))
          (set odometer (fillna_cell (Int 0) (get odometer r))
             (set is_4wd
                (replace_cell [(Int 1, Str "Yes"); (NaN, Str "No")]
                              (get is_4wd r))
                r)))).

Definition filled (t : frame) : frame := List.map fill_row t.

(** Lines 37-39 on a frame. *)
Definition refilled (t : frame) : frame :=
  assign cylinders (groupby_transform model cylinders fill_with_mode t) t.

(** Lines 37-39 on one row, once no cell of [cylinders] is missing. *)
Definition refill_row (r : row) : row :=
  set cylinders (if isna (get model r) then NaN else get cylinders r) r.

(** A conversion of column [c] on one row. *)
Definition conv_row (c : column) (f : value -> option value) (r : row)
  : option row :=
  match f (get c r) with
  | Some v => Some (set c v r)
  | None => None
  end.

Section Run.

Variable parse_datetime : string -> option Z.
Variable int_of_string : string -> option Z.

(** Lines 45-48 on a frame: the contents the frame is left with, and
    whether an exception was raised. *)
Definition typed (t : frame) : frame * outcome unit :=
  match mapM (to_datetime_cell parse_datetime) (col date_posted t) with
  | None => (t, Raise ParseError)
  | Some d =>
    let t1 := assign date_posted d t in
    match mapM (astype_int_cell int_of_string) (col odometer t1) with
    | None => (t1, Raise TypeCoercionError)
    | Some n =>
      let t2 := assign odometer n t1 in
      match mapM (astype_int_cell int_of_string) (col cylinders t2) with
      | None => (t2, Raise TypeCoercionError)
      | Some n =>
        let t3 := assign cylinders n t2 in
        match mapM (astype_int_cell int_of_string) (col model_year t3) with
        | None => (t3, Raise TypeCoercionError)
        | Some n => (assign model_year n t3, Return tt)
        end
      end
    end
  end.

Definition run_cleaning (t : frame) : frame * outcome unit :=
  typed (refilled (filled t)).

(** Lines 45-48 on one row. *)
Definition type_row (r : row) : option row :=
  ((conv_row date_posted (to_datetime_cell parse_datetime) r
    ≫= conv_row odometer (astype_int_cell int_of_string))
   ≫= conv_row cylinders (astype_int_cell int_of_string))
  ≫= conv_row model_year (astype_int_cell int_of_string).

(** The whole cleaning on one row whose model is known to be present or
    not: the row it becomes, if every conversion succeeds. *)
Definition clean_row (r : row) : option row :=
  match to_datetime_cell parse_datetime (get date_posted r),
        astype_int_cell int_of_string (fillna_cell (Int 0) (get odometer r)),
        astype_int_cell int_of_string
          (if isna (get model r) then NaN
           else fillna_cell (Int 0) (get cylinders r)),
        astype_int_cell int_of_string (fillna_cell (Int 0) (get model_year r))
  with
  | Some d, Some o, Some c, Some y =>
    Some (mkRow (replace_cell [(Int 1, Str "Yes"); (NaN, Str "No")]
                              (get is_4wd r))
                o c y
                (fillna_cell (Str "random") (get paint_color r))
                d (get price r) (get condition r) (get type r) (get model r))
  | _, _, _, _ => None
  end.

End Run.

(** ** The page script

    The statements of the module outside the function definitions: the
    listings are loaded (line 9) and cleaned (line 59), the page gets its
    title and text (lines 61-62), and each of the three buttons draws its
    chart when it has been clicked (lines 101-102, 128-129, 156-157).  One
    run of the script is modelled; the file system and the clicks are its
    inputs, the page it builds is its output. *)

Inductive figure : Type :=
| ScatterFigure (fig : scatter_figure)
| BarFigure (fig : bar_figure).

Inductive element : Type :=
| Title (s : string)
| Text (s : string)
| Button (label : string)
| PlotlyChart (fig : figure) (use_container_width : bool).

Inductive script_exn : Type :=
| FileNotFoundError        (* the listings file is not there *)
| Uncaught (e : exn).      (* an exception of the cleaning or of a builder *)

Inductive result (A : Type) : Type :=
| Done (a : A)
| Abort (e : script_exn).
Arguments Done {A} a.
Arguments Abort {A} e.

Record world : Type := mkWorld {
  heap : gmap loc frame;
  page : list element
}.

Definition Script (A : Type) : Type := world -> world * result A.

Definition sret {A} (a : A) : Script A := fun w => (w, Done a).

Definition sbind {A B} (m : Script A) (k : A -> Script B) : Script B :=
  fun w =>
    match m w with
    | (w', Done a) => k a w'
    | (w', Abort e) => (w', Abort e)
    end.

Declare Scope script_scope.
Delimit Scope script_scope with script.
Notation "x <- m ;; k" := (sbind m (fun x => k))
  (at level 100, m at next level, right associativity) : script_scope.
Notation "m ;;; k" := (sbind m (fun _ => k))
  (at level 100, right associativity) : script_scope.

(** A call of a function of the program: its exception, if any, is not
    caught. *)
Definition call {A} (m : M A) : Script A :=
  fun w =>
    match m (heap w) with
    | (h', Return a) => (mkWorld h' (page w), Done a)
    | (h', Raise e) => (mkWorld h' (page w), Abort (Uncaught e))
    end.

(** A call of a chart builder on the frame a reference names. *)
Definition build {A} (builder : frame -> outcome A) (data : loc) : Script A :=
  fun w =>
    match heap w !! data with
    | Some t =>
      match builder t with
      | Return fig => (w, Done fig)
      | Raise e => (w, Abort (Uncaught e))
      end
    | None => (w, Abort (Uncaught NameError))
    end.

(** A new element at the bottom of the page. *)
Definition emit (e : element) : Script unit :=
  fun w => (mkWorld (heap w) (page w ++ [e]), Done tt).

Definition st_title (s : string) : Script unit := emit (Title s).

Definition st_write (s : string) : Script unit := emit (Text s).

Definition st_plotly_chart (fig : figure) (use_container_width : bool)
  : Script unit :=
  emit (PlotlyChart fig use_container_width).

Section Script.

Variable parse_datetime : string -> option Z.
Variable int_of_string : string -> option Z.
Variable float_mean : list value -> value.

(** The frames the files hold, by path, and the buttons clicked before this
    run, by label. *)
Variable files : gmap string frame.
Variable clicked : string -> bool.

(** [pd.read_csv(path)]: a new frame with the contents of the file. *)
Definition read_csv (path : string) : Script loc :=
  fun w =>
    match files !! path with
    | Some t =>
      let l := fresh (dom (heap w)) in
      (mkWorld (<[l := t]> (heap w)) (page w), Done l)
    | None => (w, Abort FileNotFoundError)
    end.

(** [st.button(label)]: the button is drawn, and the call tells whether it
    was clicked. *)
Definition st_button (label : string) : Script bool :=
  fun w => (mkWorld (heap w) (page w ++ [Button label]), Done (clicked label)).

Local Open Scope script_scope.

(** Lines 61-157: the title, the text, and the three buttons with their
    charts. *)
Definition draw_page (df_clean : loc) : Script unit :=
  st_title "📊 Análisis de Datos de Vehículos" ;;;
  st_write "Dataset procesado y limpio listo para análisis visual." ;;;
  b <- st_button "Mostrar gráfica de dispersión" ;;
  (if b
   then fig <- build plot_scatter df_clean ;;
        st_plotly_chart (ScatterFigure fig) true
   else sret tt) ;;;
  b <- st_button "Mostrar gráfica de precio promedio por condición" ;;
  (if b
   then fig <- build (plot_condition_mean float_mean) df_clean ;;
        st_plotly_chart (BarFigure fig) true
   else sret tt) ;;;
  b <- st_button "Mostrar gráfica de precio promedio por tipo" ;;
  (if b
   then fig <- build (plot_type_mean float_mean) df_clean ;;
        st_plotly_chart (BarFigure fig) true
   else sret tt).

(** The script: the load (line 9), the cleaning (line 59), the page. *)
Definition script : Script unit :=
  df <- read_csv "../csv/vehicles_us.csv" ;;
  df_clean <- call (cleaning parse_datetime int_of_string df) ;;
  draw_page df_clean.

End Script.

(** The world a run starts from: no frame, an empty page. *)
Definition start : world := mkWorld ∅ [].

(** The file system with the listings file holding the given frame. *)
Definition listings_file (t : frame) : gmap string frame :=
  {[ "../csv/vehicles_us.csv" := t ]}.

(** ** Predicates of the specification *)

Definition yes_or_no (v : value) : Prop := v = Str "Yes" \/ v = Str "No".

(** What the specification asks of every cleaned row. *)
Definition row_invariant (r : row) : Prop :=
  yes_or_no (get is_4wd r)
  /\ isna (get odometer r) = false
  /\ isna (get cylinders r) = false
  /\ isna (get model_year r) = false
  /\ isna (get paint_color r) = false.

(** The raw cells of [is_4wd] that the cleaning turns into, or leaves as,
    one of the two names: the marker 1, a missing cell, or a name. *)
Definition four_wd_known (v : value) : bool :=
  match v with
  | NaN => true
  | Str s => String.eqb s "Yes" || String.eqb s "No"
  | _ => value_eqb v (Int 1)
  end.

Definition numeric_or_missing (v : value) : bool := isna v || is_number v.

Definition is_Int (v : value) : bool :=
  match v with Int _ => true | _ => false end.

Definition is_Str (v : value) : bool :=
  match v with Str _ => true | _ => false end.

(** The cells [astype(int)] converts: the finite floats, and the integers
    and the strings that [int] reads as an integer, when the integer fits
    in 64 bits. *)
Definition convertible (int_of_string : string -> option Z) (v : value)
  : bool :=
  match v with
  | Int z => in_int64 z
  | Float _ => true
  | Str s => match int_of_string s with Some z => in_int64 z | None => false end
  | NaN | Inf _ | Timestamp _ => false
  end.

(** In the words of the specification: [z] is [q] truncated toward zero,
    the integer next to [q] on the side of zero. *)
Definition truncation_of (q : Q) (z : Z) : Prop :=
  ((0 <= q)%Q -> (inject_Z z <= q)%Q /\ (q < inject_Z z + 1)%Q)
  /\ ((q <= 0)%Q -> (inject_Z z - 1 < q)%Q /\ (q <= inject_Z z)%Q).

(** The finite floats whose truncation fits in 64 bits. *)
Definition fits_int64 (q : Q) : Prop :=
  (inject_Z int64_min - 1 < q)%Q /\ (q < inject_Z int64_max + 1)%Q.


(** In the words of the specification: a cell "can be represented as an
    integer" when it is an integer, a number without fractional part, or a
    string that denotes an integer. *)
Definition spec_representable (int_of_string : string -> option Z) (v : value)
  : bool :=
  match v with
  | Int _ => true
  | Float q => Qeq_bool q (inject_Z (Qtruncate q))
  | Str s => match int_of_string s with Some _ => true | None => false end
  | NaN | Inf _ | Timestamp _ => false
  end.

(** The sum of a series of integers, and their arithmetic mean: the sum
    over the count. *)
Definition Zsum (zs : list Z) : Z := List.fold_right Z.add 0 zs.

Definition arithmetic_mean (zs : list Z) : Q :=
  Qred (inject_Z (Zsum zs) / inject_Z (Z.of_nat (List.length zs))).

(** The rationals that binary64 holds exactly, among those of moderate
    size: a significand of at most 53 bits over a power of two. *)
Definition binary64_exact (q : Q) : Prop :=
  exists (m : Z) (k : nat),
    Z.abs m <= 2 ^ 53 /\ (k <= 1022)%nat
    /\ (q == inject_Z m / inject_Z (2 ^ Z.of_nat k))%Q.

(** What is assumed of the library's mean: on integers whose sum of
    magnitudes is at most 2^53, every partial sum is exact in binary64, and
    the quotient by the count is exact as soon as binary64 holds it. *)
Definition exact_on_integers (float_mean : list value -> value) : Prop :=
  forall zs : list Z,
    zs <> [] ->
    Zsum (List.map Z.abs zs) <= 2 ^ 53 ->
    binary64_exact (arithmetic_mean zs) ->
    float_mean (List.map Int zs) = Float (arithmetic_mean zs).

(** The rows of a frame whose cell in column [key] equals [k]. *)
Definition rows_with (key : column) (k : value) (t : frame) : frame :=
  List.filter (fun r => value_eqb (get key r) k) t.

(** The cells of a series that are present. *)
Definition present (s : list value) : list value := List.filter notna s.


(** ** Facts about cells *)

Lemma ascii_compare_refl (a : ascii) : Ascii.compare a a = Eq.
Proof. unfold Ascii.compare. apply N.compare_refl. Qed.

Lemma string_compare_refl (s : string) : String.compare s s = Eq.
Proof.
  induction s as [|a s IH]; simpl; [reflexivity|].
  rewrite ascii_compare_refl. exact IH.
Qed.

Lemma Qcompare_refl (q : Q) : Qcompare q q = Eq.
Proof. unfold Qcompare. apply Z.compare_refl. Qed.

Lemma value_compare_refl (v : value) : value_compare v v = Eq.
Proof.
  destruct v as [| | |[|]| |]; unfold value_compare; simpl;
    auto using Qcompare_refl, string_compare_refl, Z.compare_refl.
Qed.

Lemma value_eqb_refl (v : value) : isna v = false -> value_eqb v v = true.
Proof.
  intros Hv. unfold value_eqb, notna. rewrite Hv, value_compare_refl.
  reflexivity.
Qed.

Lemma fillna_cell_notna (fill v : value) :
  isna fill = false -> isna (fillna_cell fill v) = false.
Proof. intros Hf. unfold fillna_cell. destruct (isna v) eqn:E; assumption. Qed.

Lemma fillna_cell_id (fill v : value) : isna v = false -> fillna_cell fill v = v.
Proof. intros Hv. unfold fillna_cell. rewrite Hv. reflexivity. Qed.

Lemma fillna_id (fill : value) (s : list value) :
  Forall (fun v => isna v = false) s -> fillna fill s = s.
Proof.
  induction 1 as [|v s Hv _ IH]; simpl; [reflexivity|].
  rewrite fillna_cell_id by assumption. f_equal. exact IH.
Qed.

(** ** Facts about rows and assignment *)

Lemma get_set_same (c : column) (v : value) (r : row) : get c (set c v r) = v.
Proof. destruct r, c; reflexivity. Qed.

Lemma get_set_other (c c' : column) (v : value) (r : row) :
  c <> c' -> get c' (set c v r) = get c' r.
Proof. intros Hne. destruct r, c, c'; try reflexivity; congruence. Qed.

Lemma assign_map (c : column) (g : row -> value) (t : frame) :
  assign c (List.map g t) t = List.map (fun r => set c (g r) r) t.
Proof.
  induction t as [|r t IH]; simpl; [reflexivity|]. rewrite IH. reflexivity.
Qed.

Lemma assign_col (c : column) (f : value -> value) (t : frame) :
  assign c (List.map f (col c t)) t
  = List.map (fun r => set c (f (get c r)) r) t.
Proof. unfold col. rewrite List.map_map. apply assign_map. Qed.

Lemma col_assign_other (c c' : column) (s : list value) (t : frame) :
  c <> c' -> col c' (assign c s t) = col c' t.
Proof.
  intros Hne. revert s. induction t as [|r t IH]; intros s; simpl;
    [reflexivity|].
  rewrite get_set_other by assumption. f_equal. apply IH.
Qed.

(** ** Running the statements on the heap *)

Section Heap.

Context {B : Type}.
Variables (h : gmap loc frame) (data : loc) (t : frame).
Hypothesis Hdata : h !! data = Some t.

Lemma getitem_run (c : column) : getitem data c h = (h, Return (col c t)).
Proof. unfold getitem. rewrite Hdata. reflexivity. Qed.

Lemma setitem_run (c : column) (s : list value) :
  setitem data c s h = (<[data := assign c s t]> h, Return tt).
Proof. unfold setitem. rewrite Hdata. reflexivity. Qed.

Lemma transform_run (key c : column) (f : list value -> list value) :
  transform data key c f h = (h, Return (groupby_transform key c f t)).
Proof. unfold transform. rewrite Hdata. reflexivity. Qed.

Lemma bind_getitem (c : column) (k : list value -> M B) :
  bind (getitem data c) k h = k (col c t) h.
Proof. unfold bind. rewrite getitem_run. reflexivity. Qed.

Lemma bind_setitem (c : column) (s : list value) (k : unit -> M B) :
  bind (setitem data c s) k h = k tt (<[data := assign c s t]> h).
Proof. unfold bind. rewrite setitem_run. reflexivity. Qed.

Lemma bind_transform (key c : column) (f : list value -> list value)
    (k : list value -> M B) :
  bind (transform data key c f) k h = k (groupby_transform key c f t) h.
Proof. unfold bind. rewrite transform_run. reflexivity. Qed.

End Heap.

Lemma bind_convert_Some {B : Type} (e : exn) (f : value -> option value)
    (s s' : list value) (k : list value -> M B) (h : gmap loc frame) :
  mapM f s = Some s' -> bind (convert e f s) k h = k s' h.
Proof. intros Hs. unfold bind, convert. rewrite Hs. reflexivity. Qed.

Lemma bind_convert_None {B : Type} (e : exn) (f : value -> option value)
    (s : list value) (k : list value -> M B) (h : gmap loc frame) :
  mapM f s = None -> bind (convert e f s) k h = (h, Raise e).
Proof. intros Hs. unfold bind, convert. rewrite Hs. reflexivity. Qed.

Lemma lookup_heap_insert (h : gmap loc frame) (data : loc) (t : frame) :
  <[data := t]> h !! data = Some t.
Proof. apply lookup_insert_eq. Qed.

Lemma heap_insert_insert (h : gmap loc frame) (data : loc) (t t' : frame) :
  <[data := t']> (<[data := t]> h) = <[data := t']> h.
Proof. apply insert_insert_eq. Qed.

Ltac run_step :=
  first
    [ erewrite bind_getitem by (first [eassumption | apply lookup_heap_insert])
    | erewrite bind_setitem by (first [eassumption | apply lookup_heap_insert])
    | erewrite bind_transform by (first [eassumption | apply lookup_heap_insert])
    | erewrite setitem_run by (first [eassumption | apply lookup_heap_insert]) ].

Lemma fill_missing_run (h : gmap loc frame) (data : loc) (t : frame) :
  h !! data = Some t ->
  fill_missing data h = (<[data := filled t]> h, Return tt).
Proof.
  intros Hdata. unfold fill_missing. repeat run_step.
  rewrite !heap_insert_insert. f_equal. f_equal.
  unfold fillna, replace, filled. rewrite !assign_col, !List.map_map.
  apply List.map_ext. intros []; reflexivity.
Qed.

Lemma refill_cylinders_run (h : gmap loc frame) (data : loc) (t : frame) :
  h !! data = Some t ->
  refill_cylinders data h = (<[data := refilled t]> h, Return tt).
Proof.
  intros Hdata. unfold refill_cylinders. repeat run_step. reflexivity.
Qed.

Lemma change_types_run (pd io : string -> option Z) (h : gmap loc frame)
    (data : loc) (t : frame) :
  h !! data = Some t ->
  change_types pd io data h
  = (<[data := fst (typed pd io t)]> h, snd (typed pd io t)).
Proof.
  intros Hdata. unfold change_types, typed, to_datetime, astype_int.
  run_step.
  destruct (mapM (to_datetime_cell pd) (col date_posted t)) as [d|] eqn:Ed.
  2:{ rewrite (bind_convert_None _ _ _ _ _ Ed). simpl.
      rewrite insert_id by assumption. reflexivity. }
  rewrite (bind_convert_Some _ _ _ _ _ _ Ed). run_step. run_step.
  match goal with |- context [mapM _ ?s] =>
    destruct (mapM (astype_int_cell io) s) as [n1|] eqn:E1 end.
  2:{ rewrite (bind_convert_None _ _ _ _ _ E1). reflexivity. }
  rewrite (bind_convert_Some _ _ _ _ _ _ E1). run_step. run_step.
  rewrite heap_insert_insert.
  match goal with |- context [mapM _ ?s] =>
    destruct (mapM (astype_int_cell io) s) as [n2|] eqn:E2 end.
  2:{ rewrite (bind_convert_None _ _ _ _ _ E2). reflexivity. }
  rewrite (bind_convert_Some _ _ _ _ _ _ E2). run_step. run_step.
  rewrite heap_insert_insert.
  match goal with |- context [mapM _ ?s] =>
    destruct (mapM (astype_int_cell io) s) as [n3|] eqn:E3 end.
  2:{ rewrite (bind_convert_None _ _ _ _ _ E3). reflexivity. }
  rewrite (bind_convert_Some _ _ _ _ _ _ E3). run_step.
  rewrite heap_insert_insert. reflexivity.
Qed.

Lemma cleaning_run (pd io : string -> option Z) (h : gmap loc frame)
    (data : loc) (t : frame) :
  h !! data = Some t ->
  cleaning pd io data h
  = (<[data := fst (run_cleaning pd io t)]> h,
     match snd (run_cleaning pd io t) with
     | Return _ => Return data
     | Raise e => Raise e
     end).
Proof.
  intros Hdata. unfold cleaning, run_cleaning.
  unfold bind at 1. rewrite (fill_missing_run _ _ _ Hdata).
  unfold bind at 1.
  rewrite (refill_cylinders_run _ _ _ (lookup_heap_insert h data (filled t))).
  rewrite heap_insert_insert.
  unfold bind.
  rewrite (change_types_run pd io _ _ _
             (lookup_heap_insert h data (refilled (filled t)))).
  rewrite heap_insert_insert.
  destruct (typed pd io (refilled (filled t))) as [t' [[]|e]]; reflexivity.
Qed.

(** ** The second filling of [cylinders] *)

Lemma group_app (key : column) (k : value) (t1 t2 : frame) :
  group key k (t1 ++ t2) = group key k t1 ++ group key k t2.
Proof. unfold group. apply List.filter_app. Qed.

Lemma group_cons_same (key : column) (r : row) (t : frame) :
  isna (get key r) = false ->
  group key (get key r) (r :: t) = r :: group key (get key r) t.
Proof.
  intros Hk. unfold group. simpl. rewrite value_eqb_refl by assumption.
  reflexivity.
Qed.

Lemma Forall_group (P : row -> Prop) (key : column) (k : value) (t : frame) :
  Forall P t -> Forall P (group key k t).
Proof.
  induction 1 as [|r t Hr _ IH]; unfold group; simpl; [constructor|].
  destruct (value_eqb (get key r) k); [constructor|]; assumption.
Qed.

(** A function that leaves the series of every group as it is makes the
    transform return the column, except on the rows without a key. *)
Lemma transform_from_id (key c : column) (f : list value -> list value)
    (t : frame) :
  (forall k, f (col c (group key k t)) = col c (group key k t)) ->
  forall rest before, t = before ++ rest ->
  transform_from key c f t before rest
  = List.map (fun r => if isna (get key r) then NaN else get c r) rest.
Proof.
  intros Hf. induction rest as [|r rest IH]; intros before Ht; simpl;
    [reflexivity|].
  f_equal.
  - destruct (isna (get key r)) eqn:Hk; [reflexivity|].
    rewrite Hf, Ht, group_app, group_cons_same by assumption.
    unfold col. rewrite List.map_app, List.app_nth2; rewrite List.length_map;
      [|lia].
    rewrite Nat.sub_diag. reflexivity.
  - apply IH. rewrite Ht, <- List.app_assoc. reflexivity.
Qed.

Lemma fill_with_mode_id (x : list value) :
  Forall (fun v => isna v = false) x -> fill_with_mode x = x.
Proof. intros Hx. unfold fill_with_mode. apply fillna_id, Hx. Qed.

Lemma refilled_rows (t : frame) :
  Forall (fun r => isna (get cylinders r) = false) t ->
  refilled t = List.map refill_row t.
Proof.
  intros Ht. unfold refilled, groupby_transform.
  rewrite (transform_from_id model cylinders fill_with_mode t).
  - apply assign_map.
  - intros k. apply fill_with_mode_id. unfold col.
    apply List.Forall_map, Forall_group, Ht.
  - reflexivity.
Qed.

Lemma filled_cylinders (t : frame) :
  Forall (fun r => isna (get cylinders r) = false) (filled t).
Proof.
  unfold filled. apply List.Forall_map, Forall_forall. intros [] _. simpl.
  apply fillna_cell_notna. reflexivity.
Qed.

Lemma set_get_same (c : column) (r : row) : set c (get c r) r = r.
Proof. destruct r, c; reflexivity. Qed.

Lemma refill_row_id (r : row) : isna (get model r) = false -> refill_row r = r.
Proof. intros Hm. unfold refill_row. rewrite Hm. apply set_get_same. Qed.

(** ** The type changes, row by row *)

Lemma mapM_col_assign (c : column) (f : value -> option value) (t : frame) :
  (fun s => assign c s t) <$> mapM f (col c t) = mapM (conv_row c f) t.
Proof.
  induction t as [|r t IH]; [reflexivity|].
  change (mapM (conv_row c f) (r :: t))
    with (y ← conv_row c f r; k ← mapM (conv_row c f) t; mret (y :: k)).
  change (mapM f (col c (r :: t)))
    with (y ← f (get c r); k ← mapM f (col c t); mret (y :: k)).
  rewrite <- IH. unfold conv_row.
  destruct (f (get c r)) as [v|]; simpl; [|reflexivity].
  destruct (mapM f (col c t)) as [s|]; reflexivity.
Qed.

Lemma mapM_bind {A B C : Type} (f : A -> option B) (g : B -> option C)
    (l : list A) :
  mapM f l ≫= mapM g = mapM (fun x => f x ≫= g) l.
Proof.
  induction l as [|x l IH]; [reflexivity|].
  change (mapM (fun x => f x ≫= g) (x :: l))
    with (y ← f x ≫= g; k ← mapM (fun x => f x ≫= g) l; mret (y :: k)).
  change (mapM f (x :: l)) with (y ← f x; k ← mapM f l; mret (y :: k)).
  rewrite <- IH.
  destruct (f x) as [y|]; simpl; [|reflexivity].
  destruct (mapM f l) as [k|]; simpl; [reflexivity|].
  destruct (g y); reflexivity.
Qed.

Lemma mapM_map {A B C : Type} (f : B -> option C) (g : A -> B) (l : list A) :
  mapM f (List.map g l) = mapM (fun x => f (g x)) l.
Proof.
  induction l as [|x l IH]; [reflexivity|].
  change (mapM f (List.map g (x :: l)))
    with (y ← f (g x); k ← mapM f (List.map g l); mret (y :: k)).
  rewrite IH. reflexivity.
Qed.

Section RunFacts.

Variable pd io : string -> option Z.

Lemma typed_Return (t t' : frame) :
  typed pd io t = (t', Return tt) <-> mapM (type_row pd io) t = Some t'.
Proof.
  unfold type_row. rewrite <- !mapM_bind, <- !mapM_col_assign. unfold typed.
  destruct (mapM (to_datetime_cell pd) (col date_posted t)) as [d|]; simpl;
    [|split; intros; discriminate].
  rewrite <- !mapM_col_assign.
  match goal with |- context [mapM _ ?s] =>
    destruct (mapM (astype_int_cell io) s) as [n1|] end; simpl;
    [|split; intros; discriminate].
  rewrite <- !mapM_col_assign.
  match goal with |- context [mapM _ ?s] =>
    destruct (mapM (astype_int_cell io) s) as [n2|] end; simpl;
    [|split; intros; discriminate].
  rewrite <- !mapM_col_assign.
  match goal with |- context [mapM _ ?s] =>
    destruct (mapM (astype_int_cell io) s) as [n3|] end; simpl;
    [|split; intros; discriminate].
  split; intros H; inversion H; reflexivity.
Qed.

Lemma type_refill_fill_row (r : row) :
  type_row pd io (refill_row (fill_row r)) = clean_row pd io r.
Proof.
  destruct r as [a b c d e f g h i j].
  unfold type_row, refill_row, fill_row, clean_row, conv_row. simpl.
  destruct (to_datetime_cell pd f) as [f'|]; simpl; [|reflexivity].
  destruct (astype_int_cell io (fillna_cell (Int 0) b)) as [b'|]; simpl;
    [|reflexivity].
  destruct (isna j); simpl;
    [reflexivity|].
  destruct (astype_int_cell io (fillna_cell (Int 0) c)) as [c'|]; simpl;
    [|reflexivity].
  destruct (astype_int_cell io (fillna_cell (Int 0) d)) as [d'|]; simpl;
    reflexivity.
Qed.

(** The cleaning succeeds exactly when every row can be cleaned on its
    own, and the frame is then left with the cleaned rows. *)
Lemma run_cleaning_Return (t t' : frame) :
  run_cleaning pd io t = (t', Return tt) <-> mapM (clean_row pd io) t = Some t'.
Proof.
  unfold run_cleaning. rewrite typed_Return.
  rewrite (refilled_rows _ (filled_cylinders t)). unfold filled.
  rewrite !mapM_map.
  rewrite (mapM_ext _ _ t type_refill_fill_row). reflexivity.
Qed.

End RunFacts.

(** ** When the cleaning returns *)

Section CleaningReturns.

Variable pd io : string -> option Z.

Lemma cleaning_Return (h h' : gmap loc frame) (data l : loc) (t : frame) :
  h !! data = Some t ->
  cleaning pd io data h = (h', Return l)
  <-> l = data
      /\ exists t', mapM (clean_row pd io) t = Some t' /\ h' = <[data := t']> h.
Proof.
  intros Hdata. rewrite (cleaning_run pd io _ _ _ Hdata).
  destruct (run_cleaning pd io t) as [t1 [[]|e]] eqn:E; simpl.
  - apply run_cleaning_Return in E. split.
    + intros H. inversion H; subst. eauto.
    + intros (-> & t' & Hm & ->). rewrite E in Hm. inversion Hm. reflexivity.
  - split; [discriminate|].
    intros (-> & t' & Hm & ->). apply run_cleaning_Return in Hm.
    rewrite E in Hm. discriminate.
Qed.

Lemma cleaning_Return_rows (h h' : gmap loc frame) (data l : loc) (t : frame) :
  h !! data = Some t ->
  cleaning pd io data h = (h', Return l) ->
  exists t', h' !! l = Some t'
             /\ Forall2 (fun r r' => clean_row pd io r = Some r') t t'.
Proof.
  intros Hdata Hrun.
  apply (cleaning_Return _ _ _ _ _ Hdata) in Hrun
    as (-> & t' & Hm & ->).
  exists t'. split; [apply lookup_heap_insert|]. apply mapM_Some, Hm.
Qed.

Lemma float_to_int64_fits (q : Q) : in_int64 (float_to_int64 q) = true.
Proof.
  unfold float_to_int64. destruct (in_int64 (Qtruncate q)) eqn:E; [exact E|].
  reflexivity.
Qed.

Lemma astype_int_cell_int64 (v w : value) :
  astype_int_cell io v = Some w -> exists z, w = Int z /\ in_int64 z = true.
Proof.
  destruct v; simpl; try discriminate.
  - destruct (in_int64 z) eqn:E; [|discriminate].
    intros H; inversion H; eauto.
  - intros H; inversion H. eauto using float_to_int64_fits.
  - destruct (io s) as [z|]; [|discriminate].
    destruct (in_int64 z) eqn:E; [|discriminate].
    intros H; inversion H; eauto.
Qed.

Lemma astype_int_cell_Some (v w : value) :
  astype_int_cell io v = Some w -> is_Int w = true.
Proof.
  intros H. apply astype_int_cell_int64 in H as (z & -> & _). reflexivity.
Qed.

Lemma is_Int_notna (v : value) : is_Int v = true -> isna v = false.
Proof. destruct v; simpl; congruence. Qed.

(** The shape of a cleaned row. *)
Lemma clean_row_Some (r r' : row) :
  clean_row pd io r = Some r' ->
  isna (get model r) = false
  /\ get is_4wd r'
     = replace_cell [(Int 1, Str "Yes"); (NaN, Str "No")] (get is_4wd r)
  /\ astype_int_cell io (fillna_cell (Int 0) (get odometer r))
     = Some (get odometer r')
  /\ astype_int_cell io (fillna_cell (Int 0) (get cylinders r))
     = Some (get cylinders r')
  /\ astype_int_cell io (fillna_cell (Int 0) (get model_year r))
     = Some (get model_year r')
  /\ get paint_color r' = fillna_cell (Str "random") (get paint_color r)
  /\ to_datetime_cell pd (get date_posted r) = Some (get date_posted r')
  /\ get price r' = get price r
  /\ get condition r' = get condition r
  /\ get type r' = get type r
  /\ get model r' = get model r.
Proof.
  unfold clean_row.
  destruct (to_datetime_cell pd (get date_posted r)) as [d|]; [|discriminate].
  destruct (astype_int_cell io (fillna_cell (Int 0) (get odometer r)))
    as [o|]; [|discriminate].
  destruct (isna (get model r)); [discriminate|].
  destruct (astype_int_cell io (fillna_cell (Int 0) (get cylinders r)))
    as [c|]; [|discriminate].
  destruct (astype_int_cell io (fillna_cell (Int 0) (get model_year r)))
    as [y|]; [|discriminate].
  intros H; inversion H; subst; simpl. repeat split; reflexivity.
Qed.

End CleaningReturns.

(** ** The names of [is_4wd] *)

Lemma replace_four_wd (v : value) :
  replace_cell [(Int 1, Str "Yes"); (NaN, Str "No")] v
  = if value_eqb v (Int 1) then Str "Yes"
    else if isna v then Str "No" else v.
Proof.
  unfold replace_cell. simpl. unfold key_matches. simpl.
  destruct (value_eqb v (Int 1)); [reflexivity|].
  destruct (isna v); reflexivity.
Qed.

Lemma replace_four_wd_names (v : value) :
  yes_or_no (replace_cell [(Int 1, Str "Yes"); (NaN, Str "No")] v)
  <-> four_wd_known v = true.
Proof.
  rewrite replace_four_wd. unfold yes_or_no.
  destruct v as [|z|q|[|]|s|ns]; simpl.
  - split; [reflexivity|]. intros _. right. reflexivity.
  - destruct (value_eqb (Int z) (Int 1)); simpl.
    + split; [reflexivity|]. intros _. left. reflexivity.
    + split; [intros [H|H]; discriminate | discriminate].
  - destruct (value_eqb (Float q) (Int 1)); simpl.
    + split; [reflexivity|]. intros _. left. reflexivity.
    + split; [intros [H|H]; discriminate | discriminate].
  - split; [intros [H|H]; discriminate | discriminate].
  - split; [intros [H|H]; discriminate | discriminate].
  - rewrite orb_true_iff, !String.eqb_eq.
    split; intros [H|H]; [left|right|left|right]; congruence.
  - split; [intros [H|H]; discriminate | discriminate].
Qed.

(** ** C1: the invariant of the cleaned rows *)

(** C1, as stated, fails: a raw [is_4wd] cell that is neither the marker 1
    nor missing (here 0) is left as it is, so the cleaned row does not
    carry one of the two names. *)
Lemma cleaning_keeps_unknown_is_4wd :
  exists h' t',
    sample_cleaning 0%nat (heap_of t_two_wd) = (h', Return 0%nat)
    /\ h' !! 0%nat = Some t'
    /\ ~ Forall row_invariant t'.
Proof.
  eexists. eexists. split; [vm_compute; reflexivity|].
  split; [vm_compute; reflexivity|].
  intros H. inversion H as [|r t' Hr _]; subst.
  destruct Hr as [[Hy|Hn] _]; discriminate.
Qed.

(** C1 (amended): after the cleaning has returned, no row has [odometer],
    [cylinders], [model_year] or [paint_color] missing, and [is_4wd] is
    "Yes" or "No" exactly on the rows whose raw cell was the marker 1,
    missing, or already one of the two names; any other raw cell is kept. *)
Theorem cleaning_invariant (pd io : string -> option Z)
    (h h' : gmap loc frame) (data l : loc) (t : frame) :
  h !! data = Some t ->
  cleaning pd io data h = (h', Return l) ->
  exists t',
    h' !! l = Some t'
    /\ Forall2
         (fun r r' =>
            (yes_or_no (get is_4wd r') <-> four_wd_known (get is_4wd r) = true)
            /\ (four_wd_known (get is_4wd r) = false ->
                get is_4wd r' = get is_4wd r)
            /\ isna (get odometer r') = false
            /\ isna (get cylinders r') = false
            /\ isna (get model_year r') = false
            /\ isna (get paint_color r') = false)
         t t'.
Proof.
  intros Hdata Hrun.
  destruct (cleaning_Return_rows pd io _ _ _ _ _ Hdata Hrun) as (t' & Ht' & Hrows).
  exists t'. split; [exact Ht'|].
  eapply Forall2_impl; [exact Hrows|]. clear. intros r r' Hr. simpl in Hr.
  apply clean_row_Some in Hr
    as (_ & H4 & Ho & Hc & Hy & Hp & _).
  repeat split.
  - rewrite H4. apply replace_four_wd_names.
  - rewrite H4. apply replace_four_wd_names.
  - intros Hk. rewrite H4, replace_four_wd.
    destruct (get is_4wd r) as [|z|q|[|]|s|ns]; simpl in *; try discriminate;
      try (rewrite Hk; reflexivity); reflexivity.
  - eapply is_Int_notna, astype_int_cell_Some, Ho.
  - eapply is_Int_notna, astype_int_cell_Some, Hc.
  - eapply is_Int_notna, astype_int_cell_Some, Hy.
  - rewrite Hp. apply fillna_cell_notna. reflexivity.
Qed.

Lemma cleaning_invariant_witness :
  exists t',
    fst (sample_cleaning 0%nat (heap_of t_demo)) !! 0%nat = Some t'
    /\ Forall2
         (fun r r' =>
            (yes_or_no (get is_4wd r') <-> four_wd_known (get is_4wd r) = true)
            /\ (four_wd_known (get is_4wd r) = false ->
                get is_4wd r' = get is_4wd r)
            /\ isna (get odometer r') = false
            /\ isna (get cylinders r') = false
            /\ isna (get model_year r') = false
            /\ isna (get paint_color r') = false)
         t_demo t'.
Proof.
  apply (cleaning_invariant iso_date decimal_int (heap_of t_demo) _ 0%nat
           0%nat t_demo).
  - vm_compute. reflexivity.
  - vm_compute. reflexivity.
Defined.

(** ** C2: the second filling of [cylinders] *)

Lemma map_fixed {A : Type} (f : A -> A) (l : list A) :
  List.map f l = l <-> Forall (fun x => f x = x) l.
Proof.
  induction l as [|x l IH]; simpl.
  - split; [constructor | reflexivity].
  - split.
    + intros H. injection H as Hx Hl. constructor; [exact Hx|].
      apply IH, Hl.
    + intros H. inversion H as [|? ? Hx Hl]; subst.
      rewrite Hx. f_equal. apply IH, Hl.
Qed.

Lemma get_model_fill_row (r : row) : get model (fill_row r) = get model r.
Proof. destruct r; reflexivity. Qed.

Lemma refill_row_fixed (r : row) :
  isna (get cylinders r) = false ->
  refill_row r = r <-> isna (get model r) = false.
Proof.
  intros Hc. split; [|apply refill_row_id].
  unfold refill_row. destruct (isna (get model r)); [|reflexivity].
  intros H. apply (f_equal (get cylinders)) in H.
  rewrite get_set_same in H. rewrite <- H in Hc. discriminate.
Qed.

Lemma refilled_filled_fixed (t : frame) :
  refilled (filled t) = filled t
  <-> Forall (fun r => isna (get model r) = false) t.
Proof.
  rewrite (refilled_rows _ (filled_cylinders t)).
  etransitivity; [exact (map_fixed refill_row (filled t))|].
  pose proof (filled_cylinders t) as Hc. unfold filled in *.
  rewrite List.Forall_map in *.
  rewrite !Forall_forall in *. split; intros H r Hr.
  - rewrite <- get_model_fill_row. apply refill_row_fixed; auto.
  - apply refill_row_fixed; auto. rewrite get_model_fill_row. auto.
Qed.

Lemma fill_then_refill_run (h : gmap loc frame) (data : loc) (t : frame) :
  h !! data = Some t ->
  bind (fill_missing data) (fun _ => refill_cylinders data) h
  = (<[data := refilled (filled t)]> h, Return tt).
Proof.
  intros Hdata. unfold bind. rewrite (fill_missing_run _ _ _ Hdata).
  rewrite (refill_cylinders_run _ _ _ (lookup_heap_insert h data (filled t))).
  rewrite heap_insert_insert. reflexivity.
Qed.

(** The mode and the second filling at work on cells that are missing:
    this is what lines 37-39 would do if line 30 had not run before. *)
Example fill_with_mode_fills :
  fill_with_mode [Int 4; NaN; Int 6; Int 6] = [Int 4; Int 6; Int 6; Int 6].
Proof. vm_compute. reflexivity. Qed.

Example groupby_transform_fills :
  groupby_transform model cylinders fill_with_mode
    [ listing NaN NaN (Float 8) NaN NaN NaN 1 "good" "pickup" "ford f-150";
      listing NaN NaN (Float 6) NaN NaN NaN 2 "good" "SUV" "bmw x5";
      listing NaN NaN NaN NaN NaN NaN 3 "good" "pickup" "ford f-150" ]
  = [Float 8; Float 6; Float 8].
Proof. vm_compute. reflexivity. Qed.

(** On a row whose model is missing the second filling is not a no-op. *)
Lemma refill_changes_rows_without_model :
  bind (fill_missing 0%nat) (fun _ => refill_cylinders 0%nat)
       (heap_of t_no_model)
  <> fill_missing 0%nat (heap_of t_no_model).
Proof.
  intros H. apply (f_equal (fun p => fst p !! 0%nat)) in H.
  vm_compute in H. discriminate.
Qed.

(** C2: the code on the table of one listing whose model is missing and
    whose cylinders are 6.0.  Lines 26-34 leave the cylinders as they are,
    for they are present; lines 37-39, which are to fill the cylinders that
    are missing, replace them by the missing marker, so that the second
    filling is no no-op; and line 47 then raises the coercion error. *)
Theorem refill_erases_present_cylinders :
  col cylinders <$> fst (fill_missing 0%nat (heap_of t_no_model)) !! 0%nat
  = Some [Float 6]
  /\ col cylinders
     <$> fst (bind (fill_missing 0%nat) (fun _ => refill_cylinders 0%nat)
                   (heap_of t_no_model)) !! 0%nat
     = Some [NaN]
  /\ snd (sample_cleaning 0%nat (heap_of t_no_model))
     = Raise TypeCoercionError.
Proof. vm_compute. repeat split; reflexivity. Qed.

(** Where the second filling of [cylinders] (lines 37-39) is a no-op after
    lines 26-34: exactly on the frames in which no row's model is missing;
    in general it keeps the cylinders of the rows that have a model and
    sets those of the rows without a model to missing. *)
Lemma refill_cylinders_noop (h : gmap loc frame) (data : loc) (t : frame) :
  h !! data = Some t ->
  (bind (fill_missing data) (fun _ => refill_cylinders data) h
   = fill_missing data h
   <-> Forall (fun r => isna (get model r) = false) t)
  /\ fst (bind (fill_missing data) (fun _ => refill_cylinders data) h) !! data
     = Some (List.map
               (fun r => if isna (get model r)
                         then set cylinders NaN (fill_row r)
                         else fill_row r)
               t).
Proof.
  intros Hdata. rewrite (fill_then_refill_run _ _ _ Hdata).
  rewrite (fill_missing_run _ _ _ Hdata). split.
  - rewrite <- refilled_filled_fixed. split.
    + intros H. apply (f_equal (fun p => fst p !! data)) in H. simpl in H.
      rewrite !lookup_heap_insert in H. congruence.
    + intros ->. reflexivity.
  - simpl. rewrite lookup_heap_insert. f_equal.
    rewrite (refilled_rows _ (filled_cylinders t)). unfold filled.
    rewrite List.map_map. apply List.map_ext. intros r.
    unfold refill_row. rewrite get_model_fill_row. cbn [get].
    destruct (isna (r_model r)); [reflexivity|]. apply set_get_same.
Qed.

Lemma refill_cylinders_noop_witness :
  (bind (fill_missing 0%nat) (fun _ => refill_cylinders 0%nat) (heap_of t_demo)
   = fill_missing 0%nat (heap_of t_demo)
   <-> Forall (fun r => isna (get model r) = false) t_demo)
  /\ fst (bind (fill_missing 0%nat) (fun _ => refill_cylinders 0%nat)
               (heap_of t_demo)) !! 0%nat
     = Some (List.map
               (fun r => if isna (get model r)
                         then set cylinders NaN (fill_row r)
                         else fill_row r)
               t_demo).
Proof.
  apply (refill_cylinders_noop (heap_of t_demo) 0%nat t_demo).
  vm_compute. reflexivity.
Defined.

(** ** C3: the cleaning works in place *)

Lemma Forall2_same_iff {A : Type} (f : A -> option A) (l l' : list A) :
  Forall2 (fun x y => f x = Some y) l l' ->
  l' = l <-> Forall (fun x => f x = Some x) l.
Proof.
  induction 1 as [|x y l l' Hxy _ IH].
  - split; [constructor | reflexivity].
  - split.
    + intros H. injection H as -> ->. constructor; [exact Hxy|].
      apply IH. reflexivity.
    + intros H. inversion H as [|? ? Hx Hl]; subst.
      rewrite Hx in Hxy. injection Hxy as ->. f_equal. apply IH, Hl.
Qed.

(** C3, as stated, fails: the frame passed to [cleaning] is not left as it
    was, it is the frame that gets cleaned. *)
Lemma cleaning_mutates_argument :
  heap_of t_demo !! 0%nat = Some t_demo
  /\ fst (sample_cleaning 0%nat (heap_of t_demo)) !! 0%nat <> Some t_demo.
Proof.
  split; [reflexivity|]. vm_compute. discriminate.
Qed.

(** C3 (amended): [cleaning] updates the frame it is given in place and
    returns that same frame: after it has returned, the argument holds the
    cleaned rows (and is unchanged only if every row was already clean),
    and no other frame of the heap is touched. *)
Theorem cleaning_in_place (pd io : string -> option Z)
    (h h' : gmap loc frame) (data l : loc) (t : frame) :
  h !! data = Some t ->
  cleaning pd io data h = (h', Return l) ->
  l = data
  /\ (forall l', l' <> data -> h' !! l' = h !! l')
  /\ exists t',
       h' !! data = Some t'
       /\ mapM (clean_row pd io) t = Some t'
       /\ (t' = t <-> Forall (fun r => clean_row pd io r = Some r) t).
Proof.
  intros Hdata Hrun.
  apply (cleaning_Return _ _ _ _ _ _ _ Hdata) in Hrun as (-> & t' & Hm & ->).
  split; [reflexivity|]. split.
  - intros l' Hl'. apply lookup_insert_ne. congruence.
  - exists t'. split; [apply lookup_heap_insert|]. split; [exact Hm|].
    apply Forall2_same_iff, mapM_Some, Hm.
Qed.

Lemma cleaning_in_place_witness :
  0%nat = 0%nat
  /\ (forall l', l' <> 0%nat ->
      fst (sample_cleaning 0%nat (heap_of t_demo)) !! l'
      = heap_of t_demo !! l')
  /\ exists t',
       fst (sample_cleaning 0%nat (heap_of t_demo)) !! 0%nat = Some t'
       /\ mapM (clean_row iso_date decimal_int) t_demo = Some t'
       /\ (t' = t_demo
           <-> Forall (fun r => clean_row iso_date decimal_int r = Some r)
                      t_demo).
Proof.
  apply (cleaning_in_place iso_date decimal_int (heap_of t_demo) _ 0%nat
           0%nat t_demo).
  - vm_compute. reflexivity.
  - vm_compute. reflexivity.
Defined.

(** ** C4: an unparseable date aborts the cleaning *)

Lemma col_filled (c : column) (t : frame) :
  (forall r, get c (fill_row r) = get c r) -> col c (filled t) = col c t.
Proof.
  intros Hc. unfold col, filled. rewrite List.map_map.
  apply List.map_ext, Hc.
Qed.

Lemma col_date_posted_refilled_filled (t : frame) :
  col date_posted (refilled (filled t)) = col date_posted t.
Proof.
  unfold refilled. rewrite col_assign_other by discriminate.
  apply col_filled. intros []; reflexivity.
Qed.

Lemma Exists_col (P : value -> Prop) (c : column) (t : frame) :
  Exists P (col c t) <-> Exists (fun r => P (get c r)) t.
Proof. unfold col. apply List.Exists_map. Qed.

Lemma typed_ParseError (pd io : string -> option Z) (t : frame) :
  Exists (fun r => to_datetime_cell pd (get date_posted r) = None) t ->
  typed pd io t = (t, Raise ParseError).
Proof.
  intros H. unfold typed.
  rewrite (proj2 (mapM_None _ _)); [reflexivity|].
  apply (Exists_col (fun v => to_datetime_cell pd v = None)), H.
Qed.

(** C4: a frame with a date that cannot be parsed makes [cleaning] raise
    the parse error, a cleaning error; no frame is returned.  The frame
    given is left with the fillings of lines 26-39 only. *)
Theorem unparseable_date_aborts (pd io : string -> option Z)
    (h : gmap loc frame) (data : loc) (t : frame) :
  h !! data = Some t ->
  Exists (fun r => exists s, get date_posted r = Str s /\ pd s = None) t ->
  cleaning pd io data h
  = (<[data := refilled (filled t)]> h, Raise ParseError)
  /\ CleaningError ParseError = true.
Proof.
  intros Hdata Hbad. split; [|reflexivity].
  rewrite (cleaning_run pd io _ _ _ Hdata). unfold run_cleaning.
  rewrite typed_ParseError; [reflexivity|].
  apply (Exists_col (fun v => to_datetime_cell pd v = None)).
  rewrite col_date_posted_refilled_filled.
  apply (Exists_col (fun v => to_datetime_cell pd v = None)).
  eapply List.Exists_impl; [|exact Hbad].
  intros r (s & Hs & Hp). rewrite Hs. simpl. rewrite Hp. reflexivity.
Qed.

Lemma unparseable_date_aborts_witness :
  sample_cleaning 0%nat (heap_of t_bad_date)
  = (<[0%nat := refilled (filled t_bad_date)]> (heap_of t_bad_date),
     Raise ParseError)
  /\ CleaningError ParseError = true.
Proof.
  apply (unparseable_date_aborts iso_date decimal_int (heap_of t_bad_date)
           0%nat t_bad_date).
  - vm_compute. reflexivity.
  - apply Exists_cons_hd. exists "not-a-date". split; vm_compute; reflexivity.
Defined.

(** ** C5: when the integer conversion fails *)

Lemma astype_int_cell_None (io : string -> option Z) (v : value) :
  astype_int_cell io v = None <-> convertible io v = false.
Proof.
  destruct v; simpl; try (split; congruence).
  - destruct (in_int64 z); split; congruence.
  - destruct (io s) as [z|]; [|split; congruence].
    destruct (in_int64 z); split; congruence.
Qed.

(** *** Truncation toward zero *)

Lemma Qtruncate_spec (q : Q) : truncation_of q (Qtruncate q).
Proof.
  destruct q as [n d]. unfold truncation_of, Qtruncate. cbn [Qnum Qden].
  pose proof (Z.quot_rem' n (Zpos d)) as Hqr.
  unfold Qle, Qlt, Qminus, Qplus, Qopp, inject_Z. cbn [Qnum Qden].
  rewrite ?Z.mul_1_r, ?Pos.mul_1_r, ?Z.mul_0_l.
  split; intros Hsign.
  - pose proof (Z.rem_bound_pos n (Zpos d) Hsign eq_refl) as Hr.
    set (a := Z.quot n (Zpos d)) in *. set (b := Z.rem n (Zpos d)) in *.
    clearbody a b. split; nia.
  - assert (0 <= - n) as Hn by lia.
    pose proof (Z.rem_bound_pos (- n) (Zpos d) Hn eq_refl) as Hr.
    rewrite Z.rem_opp_l in Hr by discriminate.
    set (a := Z.quot n (Zpos d)) in *. set (b := Z.rem n (Zpos d)) in *.
    clearbody a b. split; nia.
Qed.

Lemma Qtruncate_fits (q : Q) : fits_int64 q -> in_int64 (Qtruncate q) = true.
Proof.
  intros [Hlo Hhi]. destruct (Qtruncate_spec q) as [Hpos Hneg].
  unfold in_int64. apply andb_true_intro. rewrite !Z.leb_le.
  destruct (Qlt_le_dec q 0) as [Hq|Hq].
  - destruct (Hneg (Qlt_le_weak _ _ Hq)) as [H1 H2].
    assert (inject_Z int64_min - 1 < inject_Z (Qtruncate q))%Q as Hlow
        by (eapply Qlt_le_trans; eassumption).
    assert (inject_Z (Qtruncate q) - 1 < inject_Z 0)%Q as Hup
        by (eapply Qlt_trans; eassumption).
    unfold Qlt, Qminus, Qplus, Qopp, inject_Z in Hlow, Hup.
    cbn [Qnum Qden] in Hlow, Hup. unfold int64_min, int64_max in *. lia.
  - destruct (Hpos Hq) as [H1 H2].
    assert (inject_Z (Qtruncate q) < inject_Z int64_max + 1)%Q as Hup
        by (eapply Qle_lt_trans; eassumption).
    assert (inject_Z 0 < inject_Z (Qtruncate q) + 1)%Q as Hlow
        by (eapply Qle_lt_trans; eassumption).
    unfold Qlt, Qminus, Qplus, Qopp, inject_Z in Hlow, Hup.
    cbn [Qnum Qden] in Hlow, Hup. unfold int64_min, int64_max in *. lia.
Qed.

(** What [astype(int)] stores for a float of a filled column. *)
Lemma astype_fillna_Float (io : string -> option Z) (q : Q) (w : value) :
  astype_int_cell io (fillna_cell (Int 0) (Float q)) = Some w ->
  fits_int64 q ->
  exists z, w = Int z /\ truncation_of q z.
Proof.
  intros H Hfits. simpl in H. injection H as <-.
  exists (Qtruncate q). split; [|apply Qtruncate_spec].
  unfold float_to_int64. rewrite (Qtruncate_fits q Hfits). reflexivity.
Qed.

Lemma mapM_col_None (f : value -> option value) (c : column) (t : frame) :
  mapM f (col c t) = None <-> Exists (fun r => f (get c r) = None) t.
Proof.
  rewrite mapM_None. apply (Exists_col (fun v => f v = None)).
Qed.

Lemma mapM_col_not_None (f : value -> option value) (c : column) (t : frame) :
  mapM f (col c t) <> None <-> Forall (fun r => f (get c r) <> None) t.
Proof.
  rewrite mapM_col_None. symmetry. apply List.Forall_Exists_neg.
Qed.

Lemma Exists_or3 {A : Type} (P Q R : A -> Prop) (l : list A) :
  Exists P l \/ Exists Q l \/ Exists R l
  <-> Exists (fun x => P x \/ Q x \/ R x) l.
Proof.
  rewrite !List.Exists_exists. split.
  - intros [(x & Hx & H)|[(x & Hx & H)|(x & Hx & H)]]; exists x; tauto.
  - intros (x & Hx & [H|[H|H]]); [left|right; left|right; right]; eauto.
Qed.

Lemma typed_TypeCoercionError (pd io : string -> option Z) (t : frame) :
  snd (typed pd io t) = Raise TypeCoercionError
  <-> mapM (to_datetime_cell pd) (col date_posted t) <> None
      /\ (mapM (astype_int_cell io) (col odometer t) = None
          \/ mapM (astype_int_cell io) (col cylinders t) = None
          \/ mapM (astype_int_cell io) (col model_year t) = None).
Proof.
  unfold typed.
  destruct (mapM (to_datetime_cell pd) (col date_posted t)) as [d|]; simpl.
  2:{ split; [discriminate|]. intros [H _]. congruence. }
  rewrite !col_assign_other by discriminate.
  destruct (mapM (astype_int_cell io) (col odometer t)) as [n1|]; simpl.
  2:{ split; [|reflexivity]. intros _. split; [discriminate|]. auto. }
  rewrite !col_assign_other by discriminate.
  destruct (mapM (astype_int_cell io) (col cylinders t)) as [n2|]; simpl.
  2:{ split; [|reflexivity]. intros _. split; [discriminate|]. auto. }
  rewrite !col_assign_other by discriminate.
  destruct (mapM (astype_int_cell io) (col model_year t)) as [n3|]; simpl.
  2:{ split; [|reflexivity]. intros _. split; [discriminate|]. auto. }
  split; [discriminate|]. intros [_ [H|[H|H]]]; discriminate.
Qed.

Lemma cleaning_outcome (pd io : string -> option Z) (h : gmap loc frame)
    (data : loc) (t : frame) (e : exn) :
  h !! data = Some t ->
  snd (cleaning pd io data h) = Raise e
  <-> snd (typed pd io (refilled (filled t))) = Raise e.
Proof.
  intros Hdata. rewrite (cleaning_run pd io _ _ _ Hdata). simpl.
  unfold run_cleaning.
  destruct (snd (typed pd io (refilled (filled t)))) as [[]|e'];
    split; congruence.
Qed.

(** C5, as stated, fails: a fractional number is a cell that cannot be
    represented as an integer, and yet the cleaning returns: the number is
    truncated, not rejected. *)
Lemma fractional_is_not_rejected :
  Exists (fun r => spec_representable decimal_int (get odometer r) = false)
         (refilled (filled t_fractional))
  /\ exists h',
       sample_cleaning 0%nat (heap_of t_fractional) = (h', Return 0%nat).
Proof.
  split.
  - apply Exists_cons_hd. vm_compute. reflexivity.
  - eexists. vm_compute. reflexivity.
Qed.

(** C5 (amended): the cleaning turns [odometer], [cylinders] and
    [model_year] into integers, truncating the fractional numbers toward
    zero; it raises the coercion error if and only if every date parses (the
    parse error of line 45 comes first otherwise) and, after lines 26-39,
    some cell of these columns is not convertible: it is missing (a cell of
    [cylinders] in a row without model), or infinite, or an integer or a
    string that does not give a 64-bit integer. *)
Theorem coercion_failure_iff (pd io : string -> option Z)
    (h : gmap loc frame) (data : loc) (t : frame) :
  h !! data = Some t ->
  (snd (cleaning pd io data h) = Raise TypeCoercionError
   <-> Forall (fun r => to_datetime_cell pd (get date_posted r) <> None) t
       /\ Exists (fun r => convertible io (get odometer r) = false
                         \/ convertible io (get cylinders r) = false
                         \/ convertible io (get model_year r) = false)
                 (refilled (filled t)))
  /\ (forall h' l,
        cleaning pd io data h = (h', Return l) ->
        exists t',
          h' !! l = Some t'
          /\ Forall2
               (fun r r' =>
                  forall c,
                    c = odometer \/ c = cylinders \/ c = model_year ->
                    is_Int (get c r') = true
                    /\ forall q,
                         get c r = Float q -> fits_int64 q ->
                         exists z, get c r' = Int z /\ truncation_of q z)
               t t').
Proof.
  intros Hdata. split.
  - rewrite (cleaning_outcome pd io _ _ _ _ Hdata), typed_TypeCoercionError.
    rewrite col_date_posted_refilled_filled.
    rewrite mapM_col_not_None, !mapM_col_None, Exists_or3.
    apply and_iff_compat_l.
    rewrite !List.Exists_exists. split; intros (r & Hr & H); exists r;
      (split; [exact Hr|]); rewrite !astype_int_cell_None in *; exact H.
  - intros h' l Hrun.
    destruct (cleaning_Return_rows pd io _ _ _ _ _ Hdata Hrun)
      as (t' & Ht' & Hrows).
    exists t'. split; [exact Ht'|].
    eapply Forall2_impl; [exact Hrows|]. clear. intros r r' Hr. simpl in Hr.
    apply clean_row_Some in Hr as (_ & _ & Ho & Hc & Hy & _).
    intros c [-> | [-> | ->]]; (split; [eapply astype_int_cell_Some; eassumption|]);
      intros q Hq Hfits; rewrite Hq in *;
      eapply astype_fillna_Float; eassumption.
Qed.

Lemma coercion_failure_iff_witness :
  (snd (sample_cleaning 0%nat (heap_of t_fractional))
   = Raise TypeCoercionError
   <-> Forall (fun r => to_datetime_cell iso_date (get date_posted r) <> None)
              t_fractional
       /\ Exists (fun r => convertible decimal_int (get odometer r) = false
                         \/ convertible decimal_int (get cylinders r) = false
                         \/ convertible decimal_int (get model_year r) = false)
                 (refilled (filled t_fractional)))
  /\ (forall h' l,
        sample_cleaning 0%nat (heap_of t_fractional) = (h', Return l) ->
        exists t',
          h' !! l = Some t'
          /\ Forall2
               (fun r r' =>
                  forall c,
                    c = odometer \/ c = cylinders \/ c = model_year ->
                    is_Int (get c r') = true
                    /\ forall q,
                         get c r = Float q -> fits_int64 q ->
                         exists z, get c r' = Int z /\ truncation_of q z)
               t_fractional t').
Proof.
  apply (coercion_failure_iff iso_date decimal_int (heap_of t_fractional)
           0%nat t_fractional).
  vm_compute. reflexivity.
Defined.

(** The failure of a frame with a row without model, and the integers of a
    frame with a fractional reading. *)
Example coercion_failure_without_model :
  snd (sample_cleaning 0%nat (heap_of t_no_model)) = Raise TypeCoercionError.
Proof. vm_compute. reflexivity. Qed.

Example fractional_odometer_stored :
  col odometer
      (default [] (fst (sample_cleaning 0%nat (heap_of t_fractional)) !! 0%nat))
  = [Int 1].
Proof. vm_compute. reflexivity. Qed.

(** ** C6: cleaning a cleaned frame *)

Section Idempotence.

Variable pd io : string -> option Z.

Lemma to_datetime_cell_idem (v w : value) :
  to_datetime_cell pd v = Some w -> to_datetime_cell pd w = Some w.
Proof.
  destruct v; simpl; try (intros H; inversion H; reflexivity).
  destruct (pd s); [|discriminate]. intros H; inversion H; reflexivity.
Qed.

Lemma astype_int_cell_idem (v w : value) :
  astype_int_cell io v = Some w ->
  astype_int_cell io (fillna_cell (Int 0) w) = Some w.
Proof.
  intros H. apply astype_int_cell_int64 in H as (z & -> & Hz).
  simpl. rewrite Hz. reflexivity.
Qed.

Lemma replace_four_wd_idem (v : value) :
  let names := [(Int 1, Str "Yes"); (NaN, Str "No")] in
  replace_cell names (replace_cell names v) = replace_cell names v.
Proof.
  simpl. rewrite (replace_four_wd v).
  destruct (value_eqb v (Int 1)) eqn:E1; [reflexivity|].
  destruct (isna v) eqn:E2; [reflexivity|].
  rewrite replace_four_wd, E1, E2. reflexivity.
Qed.

Lemma fillna_cell_idem (fill v : value) :
  isna fill = false ->
  fillna_cell fill (fillna_cell fill v) = fillna_cell fill v.
Proof.
  intros Hf. apply fillna_cell_id, fillna_cell_notna, Hf.
Qed.

Lemma clean_row_idem (r r' : row) :
  clean_row pd io r = Some r' -> clean_row pd io r' = Some r'.
Proof.
  intros H. apply clean_row_Some in H
    as (Hm & H4 & Ho & Hc & Hy & Hp & Hd & _ & _ & _ & Hm').
  unfold clean_row.
  rewrite (to_datetime_cell_idem _ _ Hd), (astype_int_cell_idem _ _ Ho).
  rewrite Hm', Hm, (astype_int_cell_idem _ _ Hc), (astype_int_cell_idem _ _ Hy).
  rewrite H4, replace_four_wd_idem, Hp, fillna_cell_idem by reflexivity.
  rewrite <- H4, <- Hp, <- Hm'. destruct r'; reflexivity.
Qed.

Lemma mapM_clean_row_idem (t t' : frame) :
  mapM (clean_row pd io) t = Some t' -> mapM (clean_row pd io) t' = Some t'.
Proof.
  intros H. apply mapM_Some in H. apply mapM_Some.
  induction H as [|r r' t t' Hr _ IH]; constructor; [|exact IH].
  apply clean_row_idem in Hr. exact Hr.
Qed.

End Idempotence.

(** C6: the cleaning is idempotent: once [cleaning] has returned, calling
    it again on the frame it returned returns the same frame and changes
    no cell. *)
Theorem cleaning_idempotent (pd io : string -> option Z)
    (h h1 : gmap loc frame) (data l : loc) (t : frame) :
  h !! data = Some t ->
  cleaning pd io data h = (h1, Return l) ->
  cleaning pd io l h1 = (h1, Return l).
Proof.
  intros Hdata Hrun.
  apply (cleaning_Return _ _ _ _ _ _ _ Hdata) in Hrun as (-> & t' & Hm & ->).
  apply (cleaning_Return pd io _ _ _ _ t' (lookup_heap_insert h data t')).
  split; [reflexivity|]. exists t'. split.
  - apply mapM_clean_row_idem with t, Hm.
  - rewrite heap_insert_insert. reflexivity.
Qed.

Lemma cleaning_idempotent_witness :
  sample_cleaning 0%nat (fst (sample_cleaning 0%nat (heap_of t_demo)))
  = (fst (sample_cleaning 0%nat (heap_of t_demo)), Return 0%nat).
Proof.
  apply (cleaning_idempotent iso_date decimal_int (heap_of t_demo) _ 0%nat
           0%nat t_demo).
  - vm_compute. reflexivity.
  - vm_compute. reflexivity.
Defined.

(** ** C7: what the missing cells become *)

(** C7: once [cleaning] has returned, a row whose [is_4wd], [odometer],
    [cylinders], [model_year] and [paint_color] were all missing has
    [is_4wd] = "No", [odometer] = 0, [cylinders] = 0, [model_year] = 0 and
    [paint_color] = "random"; a row whose [is_4wd] was the marker 1 has
    [is_4wd] = "Yes". *)
Theorem cleaning_fills_missing (pd io : string -> option Z)
    (h h' : gmap loc frame) (data l : loc) (t : frame) :
  h !! data = Some t ->
  cleaning pd io data h = (h', Return l) ->
  exists t',
    h' !! l = Some t'
    /\ Forall2
         (fun r r' =>
            (get is_4wd r = NaN /\ get odometer r = NaN
             /\ get cylinders r = NaN /\ get model_year r = NaN
             /\ get paint_color r = NaN ->
             get is_4wd r' = Str "No" /\ get odometer r' = Int 0
             /\ get cylinders r' = Int 0 /\ get model_year r' = Int 0
             /\ get paint_color r' = Str "random")
            /\ (value_eqb (get is_4wd r) (Int 1) = true ->
                get is_4wd r' = Str "Yes"))
         t t'.
Proof.
  intros Hdata Hrun.
  destruct (cleaning_Return_rows pd io _ _ _ _ _ Hdata Hrun)
    as (t' & Ht' & Hrows).
  exists t'. split; [exact Ht'|].
  eapply Forall2_impl; [exact Hrows|]. clear. intros r r' Hr. simpl in Hr.
  apply clean_row_Some in Hr as (_ & H4 & Ho & Hc & Hy & Hp & _).
  split.
  - intros (E4 & Eo & Ec & Ey & Ep).
    rewrite E4 in H4. rewrite Eo in Ho. rewrite Ec in Hc. rewrite Ey in Hy.
    rewrite Ep in Hp. rewrite replace_four_wd in H4.
    injection Ho as Ho. injection Hc as Hc. injection Hy as Hy.
    repeat split; [exact H4 | symmetry; assumption.. | exact Hp].
  - intros E1. rewrite H4, replace_four_wd, E1. reflexivity.
Qed.

Lemma cleaning_fills_missing_witness :
  exists t',
    fst (sample_cleaning 0%nat (heap_of t_demo)) !! 0%nat = Some t'
    /\ Forall2
         (fun r r' =>
            (get is_4wd r = NaN /\ get odometer r = NaN
             /\ get cylinders r = NaN /\ get model_year r = NaN
             /\ get paint_color r = NaN ->
             get is_4wd r' = Str "No" /\ get odometer r' = Int 0
             /\ get cylinders r' = Int 0 /\ get model_year r' = Int 0
             /\ get paint_color r' = Str "random")
            /\ (value_eqb (get is_4wd r) (Int 1) = true ->
                get is_4wd r' = Str "Yes"))
         t_demo t'.
Proof.
  apply (cleaning_fills_missing iso_date decimal_int (heap_of t_demo) _ 0%nat
           0%nat t_demo).
  - vm_compute. reflexivity.
  - vm_compute. reflexivity.
Defined.

(** ** C10: fractional numbers are truncated *)

Example Qtruncate_positive : Qtruncate (3 # 2) = 1.
Proof. reflexivity. Qed.

Example Qtruncate_negative : Qtruncate (-3 # 2) = -1.
Proof. reflexivity. Qed.

Lemma refilled_filled_rows (t : frame) :
  refilled (filled t) = List.map (fun r => refill_row (fill_row r)) t.
Proof.
  rewrite (refilled_rows _ (filled_cylinders t)). unfold filled.
  apply List.map_map.
Qed.

Lemma get_refill_fill_row (r : row) :
  get odometer (refill_row (fill_row r))
  = fillna_cell (Int 0) (get odometer r)
  /\ get cylinders (refill_row (fill_row r))
     = (if isna (get model r) then NaN
        else fillna_cell (Int 0) (get cylinders r))
  /\ get model_year (refill_row (fill_row r))
     = fillna_cell (Int 0) (get model_year r).
Proof. destruct r as [a b c d e f g h i j]. simpl. repeat split. Qed.






(** The cast of a float too large for 64 bits. *)
Example astype_int_cell_overflow :
  astype_int_cell decimal_int (Float (inject_Z (10 ^ 19)))
  = Some (Int (-9223372036854775808)).
Proof. vm_compute. reflexivity. Qed.

(** ** The order on cells *)

Lemma ascii_compare_trans (a b c : ascii) :
  Ascii.compare a b = Lt -> Ascii.compare b c = Lt -> Ascii.compare a c = Lt.
Proof.
  unfold Ascii.compare. rewrite !N.compare_lt_iff. apply N.lt_trans.
Qed.

Lemma string_compare_trans (a b c : string) :
  String.compare a b = Lt -> String.compare b c = Lt ->
  String.compare a c = Lt.
Proof.
  revert b c. induction a as [|x a IH]; intros [|y b] [|z c]; simpl;
    try discriminate; try reflexivity.
  destruct (Ascii.compare x y) eqn:Exy; try discriminate;
    destruct (Ascii.compare y z) eqn:Eyz; try discriminate; intros Hab Hbc.
  - apply Ascii.compare_eq_iff in Exy, Eyz. subst.
    rewrite ascii_compare_refl. eapply IH; eassumption.
  - apply Ascii.compare_eq_iff in Exy. subst. rewrite Eyz. reflexivity.
  - apply Ascii.compare_eq_iff in Eyz. subst. rewrite Exy. reflexivity.
  - rewrite (ascii_compare_trans _ _ _ Exy Eyz). reflexivity.
Qed.

Lemma Qcompare_trans (a b c : Q) :
  Qcompare a b = Lt -> Qcompare b c = Lt -> Qcompare a c = Lt.
Proof. rewrite <- !Qlt_alt. apply Qlt_trans. Qed.

Lemma Qcompare_Eq_Lt (a b c : Q) :
  Qcompare a b = Eq -> Qcompare b c = Lt -> Qcompare a c = Lt.
Proof. rewrite <- Qeq_alt. intros ->. auto. Qed.

Lemma Zcompare_trans (a b c : Z) :
  Z.compare a b = Lt -> Z.compare b c = Lt -> Z.compare a c = Lt.
Proof. rewrite !Z.compare_lt_iff. apply Z.lt_trans. Qed.

Lemma value_compare_antisym (v w : value) :
  value_compare v w = CompOpp (value_compare w v).
Proof.
  destruct v as [| | |[|]| |], w as [| | |[|]| |];
    unfold value_compare; simpl; try reflexivity;
    auto using String.compare_antisym, Z.compare_antisym;
    symmetry; apply Qcompare_antisym.
Qed.

Lemma value_compare_trans (u v w : value) :
  value_compare u v = Lt -> value_compare v w = Lt -> value_compare u w = Lt.
Proof.
  destruct u as [| | |[|]| |], v as [| | |[|]| |], w as [| | |[|]| |];
    unfold value_compare; simpl;
    try discriminate; try reflexivity;
    eauto using Qcompare_trans, string_compare_trans, Zcompare_trans.
Qed.

Lemma value_compare_Eq_Lt (u v w : value) :
  value_compare u v = Eq -> value_compare v w = Lt -> value_compare u w = Lt.
Proof.
  destruct u as [| | |[|]| |], v as [| | |[|]| |], w as [| | |[|]| |];
    unfold value_compare; simpl;
    try discriminate; try reflexivity;
    eauto using Qcompare_Eq_Lt;
    intros H; first [apply String.compare_eq_iff in H
                    | apply Z.compare_eq_iff in H]; subst; auto.
Qed.

Lemma value_compare_Gt_Lt (v w : value) :
  value_compare v w = Gt -> value_compare w v = Lt.
Proof.
  intros H. rewrite value_compare_antisym, H. reflexivity.
Qed.

(** ** Sorted lists of distinct keys *)

Lemma In_insert_key (k y : value) (l : list value) :
  In y (insert_key k l) -> y = k \/ In y l.
Proof.
  induction l as [|x l IH]; simpl.
  - intros [<-|[]]. left. reflexivity.
  - destruct (value_compare k x).
    + auto.
    + simpl. intros [<-|H]; auto.
    + simpl. intros [<-|H]; auto. destruct (IH H); auto.
Qed.

Lemma insert_key_keeps (k y : value) (l : list value) :
  In y l -> In y (insert_key k l).
Proof.
  induction l as [|x l IH]; simpl; [intros []|].
  intros Hy. destruct (value_compare k x); simpl; [assumption|auto|].
  destruct Hy as [<-|Hy]; auto.
Qed.

Lemma insert_key_covers (k : value) (l : list value) :
  exists y, In y (insert_key k l) /\ value_compare k y = Eq.
Proof.
  induction l as [|x l IH]; simpl.
  - exists k. split; [left; reflexivity | apply value_compare_refl].
  - destruct (value_compare k x) eqn:E.
    + exists x. split; [left; reflexivity | exact E].
    + exists k. split; [left; reflexivity | apply value_compare_refl].
    + destruct IH as (y & Hy & Hk). exists y. split; [right; exact Hy|exact Hk].
Qed.

Lemma insert_key_sorted (k : value) (l : list value) :
  StronglySorted key_lt l -> StronglySorted key_lt (insert_key k l).
Proof.
  induction 1 as [|x l Hl IH Hx]; simpl.
  - repeat constructor.
  - destruct (value_compare k x) eqn:E.
    + constructor; assumption.
    + constructor; [constructor; assumption|].
      constructor; [exact E|].
      eapply List.Forall_impl; [|exact Hx].
      intros y Hy. eapply value_compare_trans; eassumption.
    + constructor; [exact IH|].
      apply List.Forall_forall. intros y Hy.
      apply In_insert_key in Hy as [->|Hy].
      * apply value_compare_Gt_Lt, E.
      * rewrite List.Forall_forall in Hx. apply Hx, Hy.
Qed.

Lemma fold_insert_sorted (l acc : list value) :
  StronglySorted key_lt acc ->
  StronglySorted key_lt (List.fold_left (fun acc k => insert_key k acc) l acc).
Proof.
  revert acc. induction l as [|k l IH]; intros acc Hacc; simpl; [exact Hacc|].
  apply IH, insert_key_sorted, Hacc.
Qed.

Lemma fold_insert_In (y : value) (l acc : list value) :
  In y (List.fold_left (fun acc k => insert_key k acc) l acc) ->
  In y l \/ In y acc.
Proof.
  revert acc. induction l as [|k l IH]; intros acc; simpl; [auto|].
  intros H. destruct (IH _ H) as [H'|H']; [auto|].
  apply In_insert_key in H' as [->|H']; auto.
Qed.

Lemma fold_insert_keeps (y : value) (l acc : list value) :
  In y acc -> In y (List.fold_left (fun acc k => insert_key k acc) l acc).
Proof.
  revert acc. induction l as [|k l IH]; intros acc Hy; simpl; [exact Hy|].
  apply IH, insert_key_keeps, Hy.
Qed.

Lemma fold_insert_covers (v : value) (l acc : list value) :
  In v l ->
  exists y, In y (List.fold_left (fun acc k => insert_key k acc) l acc)
            /\ value_compare v y = Eq.
Proof.
  revert acc. induction l as [|k l IH]; intros acc; simpl; [intros []|].
  intros [->|Hv]; [|apply IH, Hv].
  destruct (insert_key_covers v acc) as (y & Hy & Hvy).
  exists y. split; [|exact Hvy]. apply fold_insert_keeps, Hy.
Qed.

Lemma unique_sorted_sorted (s : list value) :
  StronglySorted key_lt (unique_sorted s).
Proof. apply fold_insert_sorted. constructor. Qed.

Lemma unique_sorted_In (y : value) (s : list value) :
  In y (unique_sorted s) -> In y s /\ isna y = false.
Proof.
  intros H. apply fold_insert_In in H as [H|[]].
  apply List.filter_In in H as [H Hy]. split; [exact H|].
  unfold notna in Hy. destruct (isna y); [discriminate|reflexivity].
Qed.

Lemma unique_sorted_covers (v : value) (s : list value) :
  In v s -> isna v = false ->
  exists y, In y (unique_sorted s) /\ value_eqb v y = true.
Proof.
  intros Hv Hna.
  destruct (fold_insert_covers v (List.filter notna s) []) as (y & Hy & Hvy).
  { apply List.filter_In. split; [exact Hv|]. unfold notna. rewrite Hna.
    reflexivity. }
  exists y. split; [exact Hy|].
  apply unique_sorted_In in Hy as [_ Hy].
  unfold value_eqb, notna. rewrite Hna, Hy, Hvy. reflexivity.
Qed.

Lemma value_eqb_compare (v w : value) :
  value_eqb v w = true -> value_compare v w = Eq.
Proof.
  unfold value_eqb. destruct (value_compare v w); try reflexivity;
    rewrite andb_false_r; discriminate.
Qed.

(** In a strictly increasing list at most one cell equals a given cell. *)
Lemma sorted_count_le_1 (k : value) (l : list value) :
  StronglySorted key_lt l -> (count_eq k l <= 1)%nat.
Proof.
  unfold count_eq. induction 1 as [|x l Hl IH Hx]; simpl; [lia|].
  destruct (value_eqb k x) eqn:E; [|exact IH].
  apply value_eqb_compare in E.
  replace (List.filter (value_eqb k) l) with (@nil value); [simpl; lia|].
  symmetry. clear IH Hl. induction Hx as [|y l Hy _ IH]; simpl; [reflexivity|].
  assert (value_eqb k y = false) as ->; [|exact IH].
  destruct (value_eqb k y) eqn:E'; [|reflexivity].
  apply value_eqb_compare in E'.
  rewrite (value_compare_Eq_Lt _ _ _ E Hy) in E'. discriminate.
Qed.

Lemma count_eq_pos (k y : value) (l : list value) :
  In y l -> value_eqb k y = true -> (1 <= count_eq k l)%nat.
Proof.
  unfold count_eq. intros Hy Hk.
  assert (In y (List.filter (value_eqb k) l)) as H
    by (apply List.filter_In; auto).
  destruct (List.filter (value_eqb k) l); [destruct H | simpl; lia].
Qed.

(** Every key of a series that is not missing occurs exactly once among
    its distinct keys. *)
Lemma unique_sorted_count (v : value) (s : list value) :
  In v s -> isna v = false -> count_eq v (unique_sorted s) = 1%nat.
Proof.
  intros Hv Hna.
  destruct (unique_sorted_covers v s Hv Hna) as (y & Hy & Hvy).
  pose proof (count_eq_pos v y _ Hy Hvy).
  pose proof (sorted_count_le_1 v _ (unique_sorted_sorted s)). lia.
Qed.

(** ** The aggregation *)

Lemma length_insert_key (k : value) (l : list value) :
  (List.length (insert_key k l) <= S (List.length l))%nat.
Proof.
  induction l as [|x l IH]; simpl; [lia|].
  destruct (value_compare k x); simpl; lia.
Qed.

Lemma length_unique_sorted (s : list value) :
  (List.length (unique_sorted s) <= List.length s)%nat.
Proof.
  unfold unique_sorted.
  pose proof (List.filter_length_le notna s) as Hf.
  enough (forall l acc,
             (List.length (List.fold_left (fun acc k => insert_key k acc) l acc)
              <= List.length l + List.length acc)%nat) as H.
  { specialize (H (List.filter notna s) []). simpl in H. lia. }
  clear. induction l as [|k l IH]; intros acc; simpl; [lia|].
  specialize (IH (insert_key k acc)).
  pose proof (length_insert_key k acc). lia.
Qed.

Lemma group_not_nil (key : column) (k : value) (t : frame) :
  In k (col key t) -> isna k = false -> group key k t <> [].
Proof.
  intros Hk Hna. unfold col in Hk. apply List.in_map_iff in Hk as (r & <- & Hr).
  assert (In r (group key (get key r) t)) as Hin.
  { apply List.filter_In. split; [exact Hr|]. apply value_eqb_refl, Hna. }
  intros E. rewrite E in Hin. destruct Hin.
Qed.

(** What [groupby(key)[price].mean()] returns on a frame whose prices are
    numbers or missing. *)
(** The sample mean is exact. *)
Lemma omap_as_number_Int (zs : list Z) :
  omap as_number (List.map Int zs) = List.map inject_Z zs.
Proof.
  induction zs as [|z zs IH]; [reflexivity|].
  change (omap as_number (List.map Int (z :: zs)))
    with (inject_Z z :: omap as_number (List.map Int zs)).
  rewrite IH. reflexivity.
Qed.

Lemma Qsum_inject_Z (zs : list Z) :
  (Qsum (List.map inject_Z zs) == inject_Z (Zsum zs))%Q.
Proof.
  induction zs as [|z zs IH]; [reflexivity|].
  change (inject_Z z + Qsum (List.map inject_Z zs) == inject_Z (z + Zsum zs))%Q.
  rewrite IH, inject_Z_plus. reflexivity.
Qed.

Lemma sample_mean_exact : exact_on_integers sample_mean.
Proof.
  intros zs Hne _ _. unfold sample_mean, arithmetic_mean.
  rewrite omap_as_number_Int.
  destruct zs as [|z zs]; [congruence|].
  cbn [List.map]. f_equal. apply Qred_complete.
  change (inject_Z z :: List.map inject_Z zs)
    with (List.map inject_Z (z :: zs)).
  rewrite Qsum_inject_Z, List.length_map. reflexivity.
Qed.

Lemma present_Int (zs : list Z) : present (List.map Int zs) = List.map Int zs.
Proof.
  unfold present. induction zs as [|z zs IH]; simpl; [reflexivity|].
  f_equal. exact IH.
Qed.

Section AggregationFacts.

Variable fm : list value -> value.

Lemma aggregate_Return (key c : column) (t : frame) (keys : list value) :
  Forall (fun k => exists m, mean fm (col c (group key k t)) = Return m) keys ->
  exists bs,
    aggregate fm key c t keys = Return bs
    /\ List.map fst bs = keys
    /\ Forall (fun b => mean fm (col c (group key (fst b) t)) = Return (snd b))
              bs.
Proof.
  induction 1 as [|k keys [m Hm] _ (bs & Hbs & Hkeys & Hall)]; simpl.
  - exists []. repeat split. constructor.
  - rewrite Hm, Hbs. exists ((k, m) :: bs). simpl. rewrite Hkeys.
    repeat split. constructor; assumption.
Qed.

Lemma mean_numeric (x : list value) :
  Forall (fun v => numeric_or_missing v = true) x ->
  exists m, mean fm x = Return m.
Proof.
  intros Hx. unfold mean.
  rewrite (proj2 (List.forallb_forall _ x)).
  - destruct (List.filter notna x); eauto.
  - rewrite List.Forall_forall in Hx. intros v Hv. specialize (Hx v Hv).
    unfold numeric_or_missing, is_number in Hx.
    destruct v; simpl in *; try reflexivity; discriminate.
Qed.

(** The mean of a series is the library's mean of its present cells. *)
Lemma mean_present (x : list value) (m : value) :
  mean fm x = Return m ->
  match present x with
  | [] => m = NaN
  | ps => m = fm ps
  end.
Proof.
  unfold mean, present. destruct (List.forallb _ x); [|discriminate].
  destruct (List.filter notna x); intros H; inversion H; reflexivity.
Qed.

(** What [groupby(key)[price].mean()] returns on a frame whose prices are
    numbers or missing. *)
Lemma groupby_mean_spec (key : column) (t : frame) :
  Forall (fun r => numeric_or_missing (get price r) = true) t ->
  exists bs,
    groupby_mean fm key price t = Return bs
    /\ List.map fst bs = unique_sorted (col key t)
    /\ Forall (fun b =>
                 match present (col price (rows_with key (fst b) t)) with
                 | [] => snd b = NaN
                 | ps => snd b = fm ps
                 end)
              bs.
Proof.
  intros Hnum. unfold groupby_mean.
  destruct (aggregate_Return key price t (unique_sorted (col key t)))
    as (bs & Hbs & Hkeys & Hall).
  { apply List.Forall_forall. intros k _. apply mean_numeric.
    unfold col. apply List.Forall_map, Forall_group, Hnum. }
  exists bs. split; [exact Hbs|]. split; [exact Hkeys|].
  eapply List.Forall_impl; [|exact Hall].
  intros b Hb. apply mean_present in Hb. exact Hb.
Qed.

Lemma groupby_mean_bars (key : column) (t : frame)
    (bs : list (value * value)) :
  exact_on_integers fm ->
  List.map fst bs = unique_sorted (col key t) ->
  Forall (fun b =>
            match present (col price (rows_with key (fst b) t)) with
            | [] => snd b = NaN
            | ps => snd b = fm ps
            end)
         bs ->
  StronglySorted key_lt (List.map fst bs)
  /\ (forall r, In r t -> isna (get key r) = false ->
      count_eq (get key r) (List.map fst bs) = 1%nat)
  /\ (forall k m, In (k, m) bs ->
      rows_with key k t <> []
      /\ match present (col price (rows_with key k t)) with
         | [] => m = NaN
         | ps => m = fm ps
         end
      /\ forall zs,
           col price (rows_with key k t) = List.map Int zs ->
           Zsum (List.map Z.abs zs) <= 2 ^ 53 ->
           binary64_exact (arithmetic_mean zs) ->
           m = Float (arithmetic_mean zs)).
Proof.
  intros Hexact Hkeys Hall. rewrite Hkeys. split; [apply unique_sorted_sorted|].
  split.
  - intros r Hr Hna. apply unique_sorted_count; [|exact Hna].
    unfold col. apply List.in_map, Hr.
  - intros k m Hb.
    assert (rows_with key k t <> []) as Hne.
    { assert (In k (unique_sorted (col key t))) as Hk.
      { rewrite <- Hkeys. apply (List.in_map fst) in Hb. exact Hb. }
      apply unique_sorted_In in Hk as [Hk Hna].
      apply (group_not_nil key k t); assumption. }
    rewrite List.Forall_forall in Hall. pose proof (Hall (k, m) Hb) as Hm.
    cbn [fst snd] in Hm. split; [exact Hne|]. split; [exact Hm|].
    intros zs Hzs Hsum Hbin. rewrite Hzs, present_Int in Hm.
    assert (zs <> []) as Hzne.
    { intros ->. unfold col in Hzs. apply List.map_eq_nil in Hzs. auto. }
    destruct zs as [|z zs]; [congruence|]. cbn [List.map] in Hm.
    rewrite Hm. apply (Hexact (z :: zs)); assumption.
Qed.

Lemma groupby_mean_length (key : column) (t : frame)
    (bs : list (value * value)) :
  List.map fst bs = unique_sorted (col key t) ->
  (List.length bs <= List.length t)%nat.
Proof.
  intros Hkeys. rewrite <- (List.length_map fst bs), Hkeys.
  etransitivity; [apply length_unique_sorted|].
  unfold col. rewrite List.length_map. reflexivity.
Qed.

End AggregationFacts.

(** ** C8: the bars of the mean price by condition *)




(** The bar of the specification's example. *)
Example condition_mean_good :
  plot_condition_mean sample_mean
    [ mkRow NaN NaN NaN NaN NaN NaN (Int 100) (Str "good") NaN NaN;
      mkRow NaN NaN NaN NaN NaN NaN (Int 200) (Str "good") NaN NaN ]
  = Return (mkBar [(Str "good", Float 150)] Vertical
                  "Precio promedio según condición del vehículo"
                  [(condition, "Condición"); (price, "Precio promedio (USD)")]
                  (Some "skyblue")).
Proof. vm_compute. reflexivity. Qed.

(** Two conditions: the bars in the order of the keys, each with the mean
    of the rows of its own condition only. *)
Example condition_mean_market :
  plot_condition_mean sample_mean t_market
  = Return (mkBar [(Str "fair", Float 900); (Str "good", Float 150)] Vertical
                  "Precio promedio según condición del vehículo"
                  [(condition, "Condición"); (price, "Precio promedio (USD)")]
                  (Some "skyblue")).
Proof. vm_compute. reflexivity. Qed.

(** ** C9: the builders on small frames *)

Lemma plot_scatter_Return (t : frame) :
  Forall (fun r => size_ok (get model_year r) = true) t ->
  exists fig,
    plot_scatter t = Return fig
    /\ traces fig
       = List.map
           (fun k => mkTrace k (List.map point_of (group condition k t)))
           (appearance_order (col condition t)).
Proof.
  intros Hsize. unfold plot_scatter.
  rewrite (proj2 (List.forallb_forall _ _)).
  - eexists. split; reflexivity.
  - intros tr Htr. apply List.in_map_iff in Htr as (k & <- & _).
    cbn [trace_points]. apply List.forallb_forall.
    intros p Hp. apply List.in_map_iff in Hp as (r & <- & Hr).
    cbn [point_of pt_size].
    pose proof (Forall_group _ condition k t Hsize) as Hg.
    rewrite List.Forall_forall in Hg. apply Hg, Hr.
Qed.

Lemma size_ok_year (v : value) :
  (exists z, v = Int z /\ 0 <= z) -> size_ok v = true.
Proof. intros (z & -> & Hz). simpl. apply Z.leb_le, Hz. Qed.

(** C9, as stated, fails: the cleaning of a single listing whose model year
    is negative returns a table of one row on which [plot_scatter] raises,
    the size of a marker being negative. *)
Lemma negative_model_year_refused :
  exists t',
    sample_cleaning 0%nat (heap_of t_negative_year)
    = (<[0%nat := t']> (heap_of t_negative_year), Return 0%nat)
    /\ List.length t' = 1%nat
    /\ List.map (get model_year) t' = [Int (-5)]
    /\ plot_scatter t' = Raise ValueError.
Proof.
  eexists. split; [vm_compute; reflexivity|].
  split; [reflexivity|]. split; reflexivity.
Qed.

(** C9 (amended): on an empty or single-row cleaned frame whose price is a
    number or missing and whose model year is not negative, none of the
    three builders raises: each returns its chart, with at most one point
    or bar.  [plot_type_mean] on the empty frame returns a chart with no
    bar. *)
Theorem builders_tolerate_small_frames (float_mean : list value -> value)
    (t : frame) :
  (List.length t <= 1)%nat ->
  Forall (fun r => numeric_or_missing (get price r) = true
                   /\ exists z, get model_year r = Int z /\ 0 <= z) t ->
  (exists fig, plot_scatter t = Return fig
               /\ List.length (points fig)
                  = List.length
                      (List.filter (fun r => notna (get condition r)) t))
  /\ (exists fig, plot_condition_mean float_mean t = Return fig
                  /\ (List.length (bars fig) <= List.length t)%nat)
  /\ (exists fig, plot_type_mean float_mean t = Return fig
                  /\ (List.length (bars fig) <= List.length t)%nat)
  /\ (exists fig, plot_type_mean float_mean [] = Return fig /\ bars fig = []).
Proof.
  intros Hlen Hall.
  assert (Forall (fun r => numeric_or_missing (get price r) = true) t) as Hnum.
  { eapply List.Forall_impl; [|exact Hall]. intros r [H _]. exact H. }
  assert (Forall (fun r => size_ok (get model_year r) = true) t) as Hsize.
  { eapply List.Forall_impl; [|exact Hall]. intros r [_ H].
    apply size_ok_year, H. }
  split; [|split; [|split]].
  - destruct (plot_scatter_Return t Hsize) as (fig & Hfig & Htraces).
    exists fig. split; [exact Hfig|]. unfold points. rewrite Htraces.
    destruct t as [|r [|r' t]]; [reflexivity| |simpl in Hlen; lia].
    unfold appearance_order, col. cbn [List.map first_seen List.existsb].
    rewrite orb_false_r. cbn [List.filter]. unfold notna.
    destruct (isna (get condition r)) eqn:Hna; [reflexivity|].
    cbn [negb List.map first_seen trace_points List.concat].
    unfold group. cbn [List.filter]. rewrite (value_eqb_refl _ Hna).
    reflexivity.
  - destruct (groupby_mean_spec float_mean condition t Hnum)
      as (bs & Hbs & Hkeys & _).
    unfold plot_condition_mean. rewrite Hbs. eexists. split; [reflexivity|].
    apply (groupby_mean_length condition t bs Hkeys).
  - destruct (groupby_mean_spec float_mean type t Hnum)
      as (bs & Hbs & Hkeys & _).
    unfold plot_type_mean. rewrite Hbs. eexists. split; [reflexivity|].
    apply (groupby_mean_length type t bs Hkeys).
  - eexists. split; reflexivity.
Qed.

Lemma builders_tolerate_small_frames_witness :
  (exists fig, plot_scatter
                 (default [] (mapM (clean_row iso_date decimal_int) t_two_wd))
               = Return fig
               /\ List.length (points fig)
                  = List.length
                      (List.filter
                         (fun r => notna (get condition r))
                         (default []
                            (mapM (clean_row iso_date decimal_int) t_two_wd))))
  /\ (exists fig,
        plot_condition_mean sample_mean
          (default [] (mapM (clean_row iso_date decimal_int) t_two_wd))
        = Return fig
        /\ (List.length (bars fig)
            <= List.length
                 (default [] (mapM (clean_row iso_date decimal_int) t_two_wd)))
           %nat)
  /\ (exists fig,
        plot_type_mean sample_mean
          (default [] (mapM (clean_row iso_date decimal_int) t_two_wd))
        = Return fig
        /\ (List.length (bars fig)
            <= List.length
                 (default [] (mapM (clean_row iso_date decimal_int) t_two_wd)))
           %nat)
  /\ (exists fig, plot_type_mean sample_mean [] = Return fig /\ bars fig = []).
Proof.
  apply (builders_tolerate_small_frames sample_mean
           (default [] (mapM (clean_row iso_date decimal_int) t_two_wd))).
  - vm_compute. lia.
  - vm_compute. constructor; [|constructor].
    split; [reflexivity|]. exists 2011. split; [reflexivity|discriminate].
Defined.

(** The bar charts of a single cleaned listing. *)
Example builders_on_one_listing :
  plot_condition_mean sample_mean
    (default [] (mapM (clean_row iso_date decimal_int) t_two_wd))
  = Return (mkBar [(Str "good", Float 9400)] Vertical
                  "Precio promedio según condición del vehículo"
                  [(condition, "Condición"); (price, "Precio promedio (USD)")]
                  (Some "skyblue"))
  /\ plot_type_mean sample_mean
       (default [] (mapM (clean_row iso_date decimal_int) t_two_wd))
     = Return (mkBar [(Str "SUV", Float 9400)] Horizontal
                     "Precio promedio por tipo de vehículo"
                     [(type, "Tipo de vehículo");
                      (price, "Precio promedio (USD)")]
                     (Some "coral")).
Proof. vm_compute. split; reflexivity. Qed.

(** ** Further properties of the cleaning *)

Lemma length_assign (c : column) (s : list value) (t : frame) :
  List.length (assign c s t) = List.length t.
Proof.
  revert s. induction t as [|r t IH]; intros s; simpl; [reflexivity|].
  f_equal. apply IH.
Qed.

Lemma length_typed (pd io : string -> option Z) (t : frame) :
  List.length (fst (typed pd io t)) = List.length t.
Proof.
  unfold typed.
  repeat match goal with
         | |- context [match mapM ?f ?s with _ => _ end] =>
           destruct (mapM f s); simpl
         end;
    rewrite ?length_assign; reflexivity.
Qed.

Lemma typed_outcomes (pd io : string -> option Z) (t : frame) :
  snd (typed pd io t) = Return tt
  \/ snd (typed pd io t) = Raise ParseError
  \/ snd (typed pd io t) = Raise TypeCoercionError.
Proof.
  unfold typed.
  repeat match goal with
         | |- context [match mapM ?f ?s with _ => _ end] =>
           destruct (mapM f s); simpl
         end; auto.
Qed.

Lemma length_run_cleaning (pd io : string -> option Z) (t : frame) :
  List.length (fst (run_cleaning pd io t)) = List.length t.
Proof.
  unfold run_cleaning, refilled, filled.
  rewrite length_typed, length_assign. apply List.length_map.
Qed.

(** Whatever its outcome, [cleaning] changes no frame of the heap but the
    one it is given, keeps the number of rows of that frame, and ends in one
    of three ways: it returns its argument, or raises the parse error, or
    raises the coercion error. *)
Theorem cleaning_frame_and_outcomes (pd io : string -> option Z)
    (h : gmap loc frame) (data : loc) (t : frame) :
  h !! data = Some t ->
  (forall l, l <> data -> fst (cleaning pd io data h) !! l = h !! l)
  /\ (exists t', fst (cleaning pd io data h) !! data = Some t'
                 /\ List.length t' = List.length t)
  /\ (snd (cleaning pd io data h) = Return data
      \/ snd (cleaning pd io data h) = Raise ParseError
      \/ snd (cleaning pd io data h) = Raise TypeCoercionError).
Proof.
  intros Hdata. rewrite (cleaning_run pd io _ _ _ Hdata). simpl.
  split; [|split].
  - intros l Hl. apply lookup_insert_ne. congruence.
  - eexists. split; [apply lookup_heap_insert|]. apply length_run_cleaning.
  - unfold run_cleaning.
    destruct (typed_outcomes pd io (refilled (filled t))) as [E|[E|E]];
      rewrite E; auto.
Qed.

Lemma cleaning_frame_and_outcomes_witness :
  (forall l, l <> 0%nat ->
     fst (sample_cleaning 0%nat (heap_of t_bad_date)) !! l
     = heap_of t_bad_date !! l)
  /\ (exists t', fst (sample_cleaning 0%nat (heap_of t_bad_date)) !! 0%nat
                 = Some t'
                 /\ List.length t' = List.length t_bad_date)
  /\ (snd (sample_cleaning 0%nat (heap_of t_bad_date)) = Return 0%nat
      \/ snd (sample_cleaning 0%nat (heap_of t_bad_date)) = Raise ParseError
      \/ snd (sample_cleaning 0%nat (heap_of t_bad_date))
         = Raise TypeCoercionError).
Proof.
  apply (cleaning_frame_and_outcomes iso_date decimal_int
           (heap_of t_bad_date) 0%nat t_bad_date).
  vm_compute. reflexivity.
Defined.

Lemma Forall2_col (c : column) (t t' : frame) :
  Forall2 (fun r r' => get c r' = get c r) t t' -> col c t' = col c t.
Proof.
  induction 1 as [|r r' t t' Hr _ IH]; simpl; [reflexivity|].
  rewrite Hr. f_equal. exact IH.
Qed.

(** When [cleaning] returns, the frame has the rows it had, in the same
    order, and their [price], [condition], [type] and [model] are as they
    were. *)
Theorem cleaning_keeps_other_columns (pd io : string -> option Z)
    (h h' : gmap loc frame) (data l : loc) (t : frame) :
  h !! data = Some t ->
  cleaning pd io data h = (h', Return l) ->
  exists t',
    h' !! l = Some t'
    /\ List.length t' = List.length t
    /\ col price t' = col price t
    /\ col condition t' = col condition t
    /\ col type t' = col type t
    /\ col model t' = col model t.
Proof.
  intros Hdata Hrun.
  destruct (cleaning_Return_rows pd io _ _ _ _ _ Hdata Hrun)
    as (t' & Ht' & Hrows).
  exists t'. split; [exact Ht'|].
  split; [symmetry; eapply Forall2_length, Hrows|].
  repeat split; apply Forall2_col;
    (eapply Forall2_impl; [exact Hrows|]); intros r r' Hr;
    apply clean_row_Some in Hr as (_ & _ & _ & _ & _ & _ & _ & Hp & Hc & Hty & Hm);
    assumption.
Qed.

Lemma cleaning_keeps_other_columns_witness :
  exists t',
    fst (sample_cleaning 0%nat (heap_of t_demo)) !! 0%nat = Some t'
    /\ List.length t' = List.length t_demo
    /\ col price t' = col price t_demo
    /\ col condition t' = col condition t_demo
    /\ col type t' = col type t_demo
    /\ col model t' = col model t_demo.
Proof.
  apply (cleaning_keeps_other_columns iso_date decimal_int (heap_of t_demo) _
           0%nat 0%nat t_demo).
  - vm_compute. reflexivity.
  - vm_compute. reflexivity.
Defined.

Lemma astype_fillna_None (io : string -> option Z) (v : value) :
  astype_int_cell io (fillna_cell (Int 0) v) = None
  <-> isna v || convertible io v = false.
Proof.
  destruct v as [|z|q|[|]|s|ns]; simpl; try (split; congruence).
  - destruct (in_int64 z); split; congruence.
  - destruct (io s) as [z|]; [|split; congruence].
    destruct (in_int64 z); split; congruence.
Qed.

Lemma clean_row_is_Some_iff (pd io : string -> option Z) (r : row) :
  is_Some (clean_row pd io r)
  <-> to_datetime_cell pd (get date_posted r) <> None
      /\ isna (get model r) = false
      /\ isna (get odometer r) || convertible io (get odometer r) = true
      /\ isna (get cylinders r) || convertible io (get cylinders r) = true
      /\ isna (get model_year r) || convertible io (get model_year r) = true.
Proof.
  pose proof (astype_fillna_None io (get odometer r)) as Ho.
  pose proof (astype_fillna_None io (get cylinders r)) as Hc.
  pose proof (astype_fillna_None io (get model_year r)) as Hy.
  unfold clean_row.
  destruct (to_datetime_cell pd (get date_posted r)) as [d|].
  2:{ split; [intros [x Hx]; discriminate | intros [H _]; congruence]. }
  destruct (astype_int_cell io (fillna_cell (Int 0) (get odometer r))) as [o|].
  2:{ split; [intros [x Hx]; discriminate|].
      intros (_ & _ & H & _). rewrite (proj1 Ho eq_refl) in H. discriminate. }
  destruct (isna (get model r)).
  { split; [intros [x Hx]; discriminate|]. intros (_ & H & _). discriminate. }
  destruct (astype_int_cell io (fillna_cell (Int 0) (get cylinders r))) as [c|].
  2:{ split; [intros [x Hx]; discriminate|].
      intros (_ & _ & _ & H & _). rewrite (proj1 Hc eq_refl) in H.
      discriminate. }
  destruct (astype_int_cell io (fillna_cell (Int 0) (get model_year r)))
    as [y|].
  2:{ split; [intros [x Hx]; discriminate|].
      intros (_ & _ & _ & _ & H). rewrite (proj1 Hy eq_refl) in H.
      discriminate. }
  split; [|intros _; eexists; reflexivity].
  intros _. split; [discriminate|]. split; [reflexivity|].
  repeat split.
  - destruct (isna (get odometer r) || convertible io (get odometer r));
      [reflexivity|]. discriminate (proj2 Ho eq_refl).
  - destruct (isna (get cylinders r) || convertible io (get cylinders r));
      [reflexivity|]. discriminate (proj2 Hc eq_refl).
  - destruct (isna (get model_year r) || convertible io (get model_year r));
      [reflexivity|]. discriminate (proj2 Hy eq_refl).
Qed.

(** [cleaning] returns exactly on the frames in which every row has a date
    that parses (or no date), a model, and in [odometer], [cylinders] and
    [model_year] a cell that is missing, a finite float, or an integer --
    or a string that [int] reads as one -- that fits in 64 bits. *)
Theorem cleaning_returns_iff (pd io : string -> option Z)
    (h : gmap loc frame) (data : loc) (t : frame) :
  h !! data = Some t ->
  (exists h', cleaning pd io data h = (h', Return data))
  <-> Forall
        (fun r =>
           to_datetime_cell pd (get date_posted r) <> None
           /\ isna (get model r) = false
           /\ isna (get odometer r) || convertible io (get odometer r) = true
           /\ isna (get cylinders r) || convertible io (get cylinders r) = true
           /\ isna (get model_year r) || convertible io (get model_year r)
              = true)
        t.
Proof.
  intros Hdata. split.
  - intros [h' Hrun].
    apply (cleaning_Return _ _ _ _ _ _ _ Hdata) in Hrun as (_ & t' & Hm & _).
    assert (is_Some (mapM (clean_row pd io) t)) as Hs by eauto.
    apply mapM_is_Some in Hs.
    eapply List.Forall_impl; [|exact Hs].
    intros r Hr. apply clean_row_is_Some_iff, Hr.
  - intros Hall.
    assert (is_Some (mapM (clean_row pd io) t)) as [t' Ht'].
    { apply mapM_is_Some. eapply List.Forall_impl; [|exact Hall].
      intros r Hr. apply clean_row_is_Some_iff, Hr. }
    exists (<[data := t']> h).
    apply (cleaning_Return _ _ _ _ _ _ _ Hdata). eauto.
Qed.

Lemma cleaning_returns_iff_witness :
  (exists h', sample_cleaning 0%nat (heap_of t_demo) = (h', Return 0%nat))
  <-> Forall
        (fun r =>
           to_datetime_cell iso_date (get date_posted r) <> None
           /\ isna (get model r) = false
           /\ isna (get odometer r) || convertible decimal_int (get odometer r)
              = true
           /\ isna (get cylinders r)
              || convertible decimal_int (get cylinders r) = true
           /\ isna (get model_year r)
              || convertible decimal_int (get model_year r) = true)
        t_demo.
Proof.
  apply (cleaning_returns_iff iso_date decimal_int (heap_of t_demo) 0%nat
           t_demo).
  vm_compute. reflexivity.
Defined.

Lemma to_datetime_cell_shape (pd : string -> option Z) (v w : value) :
  to_datetime_cell pd v = Some w ->
  (v = NaN /\ w = NaN) \/ (v <> NaN /\ exists ns, w = Timestamp ns).
Proof.
  destruct v; simpl.
  - intros H; inversion H. left. split; reflexivity.
  - intros H; inversion H. right. split; [discriminate|eauto].
  - intros H; inversion H. right. split; [discriminate|eauto].
  - discriminate.
  - destruct (pd s); [|discriminate].
    intros H; inversion H. right. split; [discriminate|eauto].
  - intros H; inversion H. right. split; [discriminate|eauto].
Qed.

(** When [cleaning] returns, the date of every row is an instant, except
    that a row without a date still has none: a missing date is neither
    filled nor refused. *)
Theorem cleaned_dates (pd io : string -> option Z)
    (h h' : gmap loc frame) (data l : loc) (t : frame) :
  h !! data = Some t ->
  cleaning pd io data h = (h', Return l) ->
  exists t',
    h' !! l = Some t'
    /\ Forall2
         (fun r r' =>
            (get date_posted r = NaN /\ get date_posted r' = NaN)
            \/ (get date_posted r <> NaN
                /\ exists ns, get date_posted r' = Timestamp ns))
         t t'.
Proof.
  intros Hdata Hrun.
  destruct (cleaning_Return_rows pd io _ _ _ _ _ Hdata Hrun)
    as (t' & Ht' & Hrows).
  exists t'. split; [exact Ht'|].
  eapply Forall2_impl; [exact Hrows|]. intros r r' Hr. simpl in Hr.
  apply clean_row_Some in Hr as (_ & _ & _ & _ & _ & _ & Hd & _).
  eapply to_datetime_cell_shape, Hd.
Qed.

Lemma cleaned_dates_witness :
  exists t',
    fst (sample_cleaning 0%nat (heap_of t_demo)) !! 0%nat = Some t'
    /\ Forall2
         (fun r r' =>
            (get date_posted r = NaN /\ get date_posted r' = NaN)
            \/ (get date_posted r <> NaN
                /\ exists ns, get date_posted r' = Timestamp ns))
         t_demo t'.
Proof.
  apply (cleaned_dates iso_date decimal_int (heap_of t_demo) _ 0%nat 0%nat
           t_demo).
  - vm_compute. reflexivity.
  - vm_compute. reflexivity.
Defined.

(** When [cleaning] returns, no cell of [is_4wd] is missing and none is
    the marker 1 any more. *)
Theorem cleaned_is_4wd_has_no_marker (pd io : string -> option Z)
    (h h' : gmap loc frame) (data l : loc) (t : frame) :
  h !! data = Some t ->
  cleaning pd io data h = (h', Return l) ->
  exists t',
    h' !! l = Some t'
    /\ Forall (fun r' => isna (get is_4wd r') = false
                         /\ value_eqb (get is_4wd r') (Int 1) = false) t'.
Proof.
  intros Hdata Hrun.
  destruct (cleaning_Return_rows pd io _ _ _ _ _ Hdata Hrun)
    as (t' & Ht' & Hrows).
  exists t'. split; [exact Ht'|].
  clear - Hrows. induction Hrows as [|r r' t t' Hr _ IH]; constructor;
    [|exact IH].
  apply clean_row_Some in Hr as (_ & H4 & _).
  rewrite H4, replace_four_wd.
  destruct (value_eqb (get is_4wd r) (Int 1)) eqn:E1; [split; reflexivity|].
  destruct (isna (get is_4wd r)) eqn:E2; [split; reflexivity|].
  split; assumption.
Qed.

Lemma cleaned_is_4wd_has_no_marker_witness :
  exists t',
    fst (sample_cleaning 0%nat (heap_of t_demo)) !! 0%nat = Some t'
    /\ Forall (fun r' => isna (get is_4wd r') = false
                         /\ value_eqb (get is_4wd r') (Int 1) = false) t'.
Proof.
  apply (cleaned_is_4wd_has_no_marker iso_date decimal_int (heap_of t_demo)
           _ 0%nat 0%nat t_demo).
  - vm_compute. reflexivity.
  - vm_compute. reflexivity.
Defined.

(** ** The mode of a group and the filling with it *)

Lemma fold_max_attained {A : Type} (g : A -> nat) (l : list A) :
  l <> [] ->
  exists v, In v l
            /\ g v = List.fold_right (fun v m => Nat.max (g v) m) 0%nat l.
Proof.
  induction l as [|a l IH]; [congruence|]. intros _. simpl.
  destruct l as [|b l].
  - exists a. split; [left; reflexivity|]. simpl. lia.
  - destruct IH as (v & Hv & Hg); [discriminate|].
    destruct (Nat.max_spec (g a)
                (List.fold_right (fun v m => Nat.max (g v) m) 0%nat (b :: l)))
      as [[_ E]|[_ E]]; rewrite E.
    + exists v. split; [right; exact Hv|exact Hg].
    + exists a. split; [left; reflexivity|reflexivity].
Qed.

Lemma fold_max_bound {A : Type} (g : A -> nat) (l : list A) (v : A) :
  In v l ->
  (g v <= List.fold_right (fun v m => Nat.max (g v) m) 0%nat l)%nat.
Proof.
  induction l as [|a l IH]; simpl; [intros []|].
  intros [->|Hv]; [lia|]. specialize (IH Hv). lia.
Qed.

Lemma In_notna (v : value) (x : list value) :
  In v (List.filter notna x) <-> In v x /\ isna v = false.
Proof.
  rewrite List.filter_In. unfold notna.
  destruct (isna v); simpl; split; intros [H1 H2]; split; congruence.
Qed.

Lemma mode_all_missing (x : list value) :
  Forall (fun v => isna v = true) x -> mode x = [].
Proof.
  intros Hx. unfold mode.
  assert (List.filter notna x = []) as ->; [|reflexivity].
  induction Hx as [|v x Hv _ IH]; simpl; [reflexivity|].
  unfold notna. rewrite Hv. simpl. exact IH.
Qed.

(** The head of the mode of a series with a present cell: a present cell
    of the series, as frequent as any, and the least of the most frequent. *)
Lemma mode_head (x : list value) :
  Exists (fun v => isna v = false) x ->
  exists m rest,
    mode x = m :: rest
    /\ In m x /\ isna m = false
    /\ (forall v, In v x -> isna v = false ->
        (count_eq v (List.filter notna x)
         <= count_eq m (List.filter notna x))%nat)
    /\ (forall v, In v x -> isna v = false ->
        count_eq v (List.filter notna x) = count_eq m (List.filter notna x) ->
        value_compare m v <> Gt).
Proof.
  intros Hex. unfold mode.
  set (xs := List.filter notna x).
  set (ml := List.filter (fun v => Nat.eqb (count_eq v xs) (max_count xs)) xs).
  assert (xs <> []) as Hxs.
  { apply List.Exists_exists in Hex as (v & Hv & Hna).
    assert (In v xs) as Hin by (apply In_notna; auto).
    intros E. rewrite E in Hin. destruct Hin. }
  assert (forall v, In v ml <-> In v x /\ isna v = false
                                /\ count_eq v xs = max_count xs) as Hml.
  { intros v. unfold ml. rewrite List.filter_In, Nat.eqb_eq.
    unfold xs at 1. rewrite In_notna. tauto. }
  destruct (fold_max_attained (fun v => count_eq v xs) xs Hxs)
    as (v0 & Hv0 & Hmax). fold (max_count xs) in Hmax.
  assert (In v0 ml) as Hv0ml.
  { apply Hml. apply In_notna in Hv0 as [? ?]. auto. }
  destruct (unique_sorted_covers v0 ml Hv0ml) as (y0 & Hy0 & _).
  { apply Hml in Hv0ml. tauto. }
  pose proof (unique_sorted_sorted ml) as Hsorted.
  destruct (unique_sorted ml) as [|m rest] eqn:Emode; [destruct Hy0|].
  assert (In m ml) as Hm.
  { apply (unique_sorted_In m ml). rewrite Emode. left. reflexivity. }
  apply Hml in Hm as (Hmx & Hmna & Hmc).
  exists m, rest. split; [reflexivity|]. split; [exact Hmx|].
  split; [exact Hmna|]. split.
  - intros v Hv Hna. rewrite Hmc.
    apply (fold_max_bound (fun v => count_eq v xs)). apply In_notna. auto.
  - intros v Hv Hna Hc Hgt.
    assert (In v ml) as Hvml by (apply Hml; rewrite Hc; auto).
    destruct (unique_sorted_covers v ml Hvml Hna) as (y & Hy & Hvy).
    apply value_eqb_compare in Hvy. apply value_compare_Gt_Lt in Hgt.
    rewrite Emode in Hy. destruct Hy as [<-|Hy].
    + rewrite Hvy in Hgt. discriminate.
    + inversion Hsorted as [|? ? _ Hlt]; subst.
      rewrite List.Forall_forall in Hlt. specialize (Hlt y Hy).
      assert (value_compare y v = Eq) as Hyv
          by (rewrite value_compare_antisym, Hvy; reflexivity).
      pose proof (value_compare_Eq_Lt _ _ _ Hyv Hgt) as Hym.
      pose proof (value_compare_trans _ _ _ Hlt Hym) as Hmm.
      rewrite value_compare_refl in Hmm. discriminate.
Qed.

Lemma Forall2_map_self {A B : Type} (P : A -> B -> Prop) (g : A -> B)
    (l : list A) :
  (forall v, P v (g v)) -> Forall2 P l (List.map g l).
Proof. intros H. induction l; simpl; constructor; auto. Qed.

(** The function of line 38 on the series of one group: the cells that are
    present are kept; with no present cell nothing changes; otherwise every
    missing cell becomes one and the same present cell of the series, which
    is as frequent as any other and the least of the most frequent ones. *)
Theorem fill_with_mode_spec (x : list value) :
  List.length (fill_with_mode x) = List.length x
  /\ Forall2 (fun v w => isna v = false -> w = v) x (fill_with_mode x)
  /\ (Forall (fun v => isna v = true) x -> fill_with_mode x = x)
  /\ (Exists (fun v => isna v = false) x ->
      exists m,
        In m x /\ isna m = false
        /\ (forall v, In v x -> isna v = false ->
            (count_eq v (List.filter notna x)
             <= count_eq m (List.filter notna x))%nat)
        /\ (forall v, In v x -> isna v = false ->
            count_eq v (List.filter notna x)
            = count_eq m (List.filter notna x) ->
            value_compare m v <> Gt)
        /\ Forall2 (fun v w => isna v = true -> w = m) x (fill_with_mode x)).
Proof.
  split; [apply List.length_map|]. split; [|split].
  - apply Forall2_map_self. intros v Hv. apply fillna_cell_id, Hv.
  - intros Hx. unfold fill_with_mode. rewrite (mode_all_missing x Hx).
    unfold fillna. induction Hx as [|v x Hv _ IH]; simpl; [reflexivity|].
    rewrite IH. destruct v; try discriminate. reflexivity.
  - intros Hex.
    destruct (mode_head x Hex) as (m & rest & Hmode & Hm & Hna & Hfreq & Hleast).
    exists m. repeat (split; [assumption|]).
    unfold fill_with_mode. rewrite Hmode. apply Forall2_map_self.
    intros v Hv. unfold fillna_cell. rewrite Hv. reflexivity.
Qed.

(** A function that works cell by cell on the series of every group makes
    the transform work cell by cell on the column, except on the rows
    without a key. *)
Lemma transform_from_cellwise (key c : column) (f : list value -> list value)
    (g : value -> value -> value) (t : frame) :
  (forall k, f (col c (group key k t))
             = List.map (g k) (col c (group key k t))) ->
  forall rest before, t = before ++ rest ->
  transform_from key c f t before rest
  = List.map (fun r => if isna (get key r) then NaN
                       else g (get key r) (get c r)) rest.
Proof.
  intros Hf. induction rest as [|r rest IH]; intros before Ht; simpl;
    [reflexivity|].
  f_equal.
  - destruct (isna (get key r)) eqn:Hk; [reflexivity|].
    rewrite Hf, Ht, group_app, group_cons_same by assumption.
    unfold col. rewrite !List.map_app, List.app_nth2;
      rewrite !List.length_map; [|lia].
    rewrite Nat.sub_diag. reflexivity.
  - apply IH. rewrite Ht, <- List.app_assoc. reflexivity.
Qed.

(** Lines 37-39 on any frame: a row without model loses its cylinders; a
    row with a model keeps its cylinders if it has them, and otherwise
    receives the mode of the cylinders of the rows of the same model (and
    stays without if none of these rows has cylinders). *)
Theorem refill_cylinders_rows (h : gmap loc frame) (data : loc) (t : frame) :
  h !! data = Some t ->
  refill_cylinders data h
  = (<[data :=
         List.map
           (fun r =>
              set cylinders
                  (if isna (get model r) then NaN
                   else fillna_cell
                          (List.hd NaN
                             (mode (col cylinders
                                        (group model (get model r) t))))
                          (get cylinders r))
                  r)
           t]> h,
     Return tt).
Proof.
  intros Hdata. rewrite (refill_cylinders_run _ _ _ Hdata).
  f_equal. f_equal. unfold refilled, groupby_transform.
  rewrite (transform_from_cellwise model cylinders fill_with_mode
             (fun k v =>
                fillna_cell
                  (List.hd NaN (mode (col cylinders (group model k t)))) v)
             t).
  - apply assign_map.
  - intros k. unfold fill_with_mode, fillna.
    destruct (mode (col cylinders (group model k t))); reflexivity.
  - reflexivity.
Qed.

Lemma refill_cylinders_rows_witness :
  refill_cylinders 0%nat (heap_of t_demo)
  = (<[0%nat :=
         List.map
           (fun r =>
              set cylinders
                  (if isna (get model r) then NaN
                   else fillna_cell
                          (List.hd NaN
                             (mode (col cylinders
                                        (group model (get model r) t_demo))))
                          (get cylinders r))
                  r)
           t_demo]> (heap_of t_demo),
     Return tt).
Proof.
  apply (refill_cylinders_rows (heap_of t_demo) 0%nat t_demo).
  vm_compute. reflexivity.
Defined.

(** ** Further properties of the charts *)

(** On a frame whose prices are numbers (or missing, and then skipped),
    [plot_type_mean] returns a horizontal bar chart whose bars come in
    increasing order of their keys, with exactly one bar for each type
    present in the frame; every bar stands for a type that has rows, and its
    length is the mean that the library computes, in binary64, of the
    prices present in the rows of that type: their arithmetic mean, for
    integer prices whose magnitudes sum to at most 2^53, whenever binary64
    holds it. *)
Theorem type_mean_bars (float_mean : list value -> value) (t : frame) :
  exact_on_integers float_mean ->
  Forall (fun r => numeric_or_missing (get price r) = true) t ->
  exists fig,
    plot_type_mean float_mean t = Return fig
    /\ bar_orientation fig = Horizontal
    /\ StronglySorted key_lt (List.map fst (bars fig))
    /\ (forall r, In r t -> isna (get type r) = false ->
        count_eq (get type r) (List.map fst (bars fig)) = 1%nat)
    /\ (forall k m, In (k, m) (bars fig) ->
        rows_with type k t <> []
        /\ match present (col price (rows_with type k t)) with
           | [] => m = NaN
           | ps => m = float_mean ps
           end
        /\ forall zs,
             col price (rows_with type k t) = List.map Int zs ->
             Zsum (List.map Z.abs zs) <= 2 ^ 53 ->
             binary64_exact (arithmetic_mean zs) ->
             m = Float (arithmetic_mean zs)).
Proof.
  intros Hexact Hnum.
  destruct (groupby_mean_spec float_mean type t Hnum)
    as (bs & Hbs & Hkeys & Hall).
  destruct (groupby_mean_bars float_mean type t bs Hexact Hkeys Hall)
    as (Hsorted & Hcount & Hbars).
  unfold plot_type_mean. rewrite Hbs. eexists. split; [reflexivity|].
  cbn [bars bar_orientation update_traces]. auto.
Qed.

Lemma type_mean_bars_witness :
  exists fig,
    plot_type_mean sample_mean t_market = Return fig
    /\ bar_orientation fig = Horizontal
    /\ StronglySorted key_lt (List.map fst (bars fig))
    /\ (forall r, In r t_market -> isna (get type r) = false ->
        count_eq (get type r) (List.map fst (bars fig)) = 1%nat)
    /\ (forall k m, In (k, m) (bars fig) ->
        rows_with type k t_market <> []
        /\ match present (col price (rows_with type k t_market)) with
           | [] => m = NaN
           | ps => m = sample_mean ps
           end
        /\ forall zs,
             col price (rows_with type k t_market) = List.map Int zs ->
             Zsum (List.map Z.abs zs) <= 2 ^ 53 ->
             binary64_exact (arithmetic_mean zs) ->
             m = Float (arithmetic_mean zs)).
Proof.
  apply (type_mean_bars sample_mean t_market).
  - exact sample_mean_exact.
  - repeat constructor.
Defined.

(** Two types: the bars in the order of the keys, each with the mean of
    the rows of its own type only. *)
Example type_mean_market :
  plot_type_mean sample_mean t_market
  = Return (mkBar [(Str "SUV", Float 150); (Str "sedan", Float 900)]
                  Horizontal
                  "Precio promedio por tipo de vehículo"
                  [(type, "Tipo de vehículo");
                   (price, "Precio promedio (USD)")]
                  (Some "coral")).
Proof. vm_compute. reflexivity. Qed.

(** *** The traces of the scatter chart *)

Lemma value_eqb_Str (a b : string) :
  value_eqb (Str a) (Str b) = true <-> a = b.
Proof.
  unfold value_eqb, value_compare. simpl.
  destruct (String.compare a b) eqn:E.
  - apply String.compare_eq_iff in E. split; auto.
  - split; [discriminate|]. intros ->.
    rewrite string_compare_refl in E. discriminate.
  - split; [discriminate|]. intros ->.
    rewrite string_compare_refl in E. discriminate.
Qed.

Lemma is_Str_inv (v : value) : is_Str v = true -> exists s, v = Str s.
Proof. destruct v; simpl; try discriminate. eauto. Qed.

Lemma existsb_eqb_Str (v : value) (seen : list value) :
  is_Str v = true ->
  Forall (fun w => is_Str w = true) seen ->
  List.existsb (value_eqb v) seen = true <-> In v seen.
Proof.
  intros Hv Hseen. apply is_Str_inv in Hv as [a ->].
  rewrite List.existsb_exists. split.
  - intros (w & Hw & E). rewrite List.Forall_forall in Hseen.
    destruct (is_Str_inv w (Hseen w Hw)) as [b ->].
    apply value_eqb_Str in E. subst. exact Hw.
  - intros H. exists (Str a). split; [exact H|].
    apply value_eqb_Str. reflexivity.
Qed.

Lemma value_eq_Str_dec (v k : value) :
  is_Str v = true -> is_Str k = true -> v = k \/ v <> k.
Proof.
  intros Hv Hk. apply is_Str_inv in Hv as [a ->].
  apply is_Str_inv in Hk as [b ->].
  destruct (string_dec a b) as [->|Hne]; [left; reflexivity|].
  right. intros H. inversion H. contradiction.
Qed.

(** Among strings, the keys in order of first appearance are the distinct
    cells of the series. *)
Lemma first_seen_Str (s seen : list value) :
  Forall (fun w => is_Str w = true) s ->
  Forall (fun w => is_Str w = true) seen ->
  List.NoDup (first_seen seen s)
  /\ forall k, In k (first_seen seen s) <-> In k s /\ ~ In k seen.
Proof.
  intros Hs. revert seen.
  induction Hs as [|v s Hv Hs IH]; intros seen Hseen.
  - simpl. split; [constructor|]. intros k. tauto.
  - cbn [first_seen].
    assert (isna v = false) as ->
        by (destruct (is_Str_inv v Hv) as [a ->]; reflexivity).
    cbn [orb]. destruct (List.existsb (value_eqb v) seen) eqn:E.
    + apply (existsb_eqb_Str v seen Hv Hseen) in E.
      destruct (IH seen Hseen) as [Hnd Hin]. split; [exact Hnd|].
      intros k. rewrite Hin. simpl. split.
      * intros [H1 H2]. auto.
      * intros [[<-|H1] H2]; [contradiction|auto].
    + assert (~ In v seen) as Hnot.
      { intros H. apply (existsb_eqb_Str v seen Hv Hseen) in H. congruence. }
      destruct (IH (v :: seen)) as [Hnd Hin]; [constructor; assumption|].
      split.
      * constructor; [|exact Hnd]. rewrite Hin. simpl. tauto.
      * intros k. simpl. rewrite Hin. simpl. split.
        -- intros [<-|[H1 H2]]; [auto|]. split; [auto|]. tauto.
        -- intros [[<-|H1] H2]; [auto|].
           assert (is_Str k = true) as Hk.
           { rewrite List.Forall_forall in Hs. apply Hs, H1. }
           destruct (value_eq_Str_dec v k Hv Hk) as [->|Hne]; [auto|].
           right. split; [exact H1|]. intros [H|H]; auto.
Qed.

(** A key comes after the keys that appear before its first cell. *)
Lemma first_seen_order (s seen pre post : list value) (k : value) :
  Forall (fun w => is_Str w = true) s ->
  Forall (fun w => is_Str w = true) seen ->
  first_seen seen s = pre ++ k :: post ->
  exists a b,
    s = a ++ k :: b /\ forall x, In x a -> In x pre \/ In x seen.
Proof.
  intros Hs. revert seen pre.
  induction Hs as [|v s Hv Hs IH]; intros seen pre Hseen H.
  - destruct pre; discriminate.
  - cbn [first_seen] in H.
    assert (isna v = false) as Hna
        by (destruct (is_Str_inv v Hv) as [c ->]; reflexivity).
    rewrite Hna in H. cbn [orb] in H.
    destruct (List.existsb (value_eqb v) seen) eqn:E.
    + apply (existsb_eqb_Str v seen Hv Hseen) in E.
      destruct (IH seen pre Hseen H) as (a & b & -> & Ha).
      exists (v :: a), b. split; [reflexivity|].
      intros x [<-|Hx]; auto.
    + destruct pre as [|p pre]; cbn [List.app] in H.
      * injection H as -> _. exists [], s. split; [reflexivity|].
        intros x [].
      * injection H as <- H.
        assert (Forall (fun w => is_Str w = true) (v :: seen)) as Hseen'
            by (constructor; assumption).
        destruct (IH (v :: seen) pre Hseen' H) as (a & b & -> & Ha).
        exists (v :: a), b. split; [reflexivity|].
        intros x [<-|Hx]; [left; left; reflexivity|].
        destruct (Ha x Hx) as [Hpre|[<-|Hin]];
          [left; right; exact Hpre | left; left; reflexivity | right; exact Hin].
Qed.

Lemma forallb_false {A : Type} (f : A -> bool) (l : list A) :
  List.forallb f l = false -> exists x, In x l /\ f x = false.
Proof.
  induction l as [|x l IH]; simpl; [discriminate|].
  destruct (f x) eqn:E; simpl.
  - intros H. destruct (IH H) as (y & Hy & Hf). eauto.
  - intros _. eauto.
Qed.

Lemma size_ok_Int (z : Z) : size_ok (Int z) = true <-> 0 <= z.
Proof. simpl. apply Z.leb_le. Qed.

(** The scatter chart of a frame whose conditions are strings and whose
    model years are integers. *)
Lemma plot_scatter_traces (t : frame) :
  Forall (fun r => is_Str (get condition r) = true) t ->
  Forall (fun r => is_Int (get model_year r) = true) t ->
  (plot_scatter t = Raise ValueError
   <-> Exists (fun r => exists z, get model_year r = Int z /\ z < 0) t)
  /\ forall fig,
       plot_scatter t = Return fig ->
       List.NoDup (List.map trace_name (traces fig))
       /\ (forall k, In k (List.map trace_name (traces fig))
                     <-> In k (col condition t))
       /\ (forall pre k post,
             List.map trace_name (traces fig) = pre ++ k :: post ->
             exists a b, col condition t = a ++ k :: b
                         /\ forall x, In x a -> In x pre)
       /\ Forall
            (fun tr =>
               trace_points tr
               = List.map point_of (rows_with condition (trace_name tr) t)
               /\ Forall (fun r => get condition r = trace_name tr
                                   /\ size_ok (get model_year r) = true)
                         (rows_with condition (trace_name tr) t))
            (traces fig).
Proof.
  intros Hcond Hyear.
  assert (Forall (fun w => is_Str w = true) (col condition t)) as Hcol.
  { unfold col. apply List.Forall_map. exact Hcond. }
  destruct (first_seen_Str (col condition t) [] Hcol (List.Forall_nil _))
    as [Hnd Hin].
  fold (appearance_order (col condition t)) in Hnd, Hin.
  assert (forall r, In r t ->
            In r (group condition (get condition r) t)
            /\ In (get condition r) (appearance_order (col condition t)))
    as Hrow.
  { intros r Hr. rewrite List.Forall_forall in Hcond.
    destruct (is_Str_inv _ (Hcond r Hr)) as [a Ha]. split.
    - unfold group. apply List.filter_In. split; [exact Hr|].
      rewrite Ha. apply value_eqb_Str. reflexivity.
    - apply Hin. split; [|intros []]. unfold col. apply List.in_map, Hr. }
  unfold plot_scatter.
  set (by_condition :=
         List.map
           (fun k => mkTrace k (List.map point_of (group condition k t)))
           (appearance_order (col condition t))).
  destruct (List.forallb _ by_condition) eqn:E.
  - split.
    + split; [discriminate|]. intros Hex. exfalso.
      apply List.Exists_exists in Hex as (r & Hr & z & Hz & Hneg).
      destruct (Hrow r Hr) as [Hg Hk].
      assert (In (mkTrace (get condition r)
                          (List.map point_of
                                    (group condition (get condition r) t)))
                 by_condition) as Htr.
      { unfold by_condition. apply List.in_map_iff. eauto. }
      rewrite List.forallb_forall in E. specialize (E _ Htr).
      cbn [trace_points] in E. rewrite List.forallb_forall in E.
      specialize (E (point_of r) (List.in_map point_of _ _ Hg)).
      cbn [point_of pt_size] in E. rewrite Hz in E.
      apply size_ok_Int in E. lia.
    + intros fig H. inversion H; subst; clear H. cbn [traces].
      assert (List.map trace_name by_condition
              = appearance_order (col condition t)) as Hnames.
      { unfold by_condition. rewrite List.map_map. cbn [trace_name].
        apply List.map_id. }
      rewrite Hnames. split; [exact Hnd|]. split; [|split].
      * intros k. rewrite Hin. tauto.
      * intros pre k post Hpre.
        destruct (first_seen_order (col condition t) [] pre post k Hcol
                    (List.Forall_nil _) Hpre) as (a & b & Hab & Ha).
        exists a, b. split; [exact Hab|].
        intros x Hx. destruct (Ha x Hx) as [H|[]]. exact H.
      * apply List.Forall_forall. intros tr Htr.
        pose proof Htr as Htr'.
        unfold by_condition in Htr'.
        apply List.in_map_iff in Htr' as (k & <- & Hk).
        cbn [trace_name trace_points]. split; [reflexivity|].
        apply List.Forall_forall. intros r Hr.
        pose proof Hr as Hr'. unfold rows_with in Hr'.
        apply List.filter_In in Hr' as [Hrt Heq]. split.
        -- rewrite List.Forall_forall in Hcond, Hcol.
           destruct (is_Str_inv _ (Hcond r Hrt)) as [a Ha].
           apply Hin in Hk as [Hk _].
           destruct (is_Str_inv _ (Hcol k Hk)) as [b ->].
           rewrite Ha in Heq |- *. apply value_eqb_Str in Heq. subst.
           reflexivity.
        -- rewrite List.forallb_forall in E. specialize (E _ Htr).
           cbn [trace_points] in E. rewrite List.forallb_forall in E.
           apply (E (point_of r)). apply List.in_map. exact Hr.
  - split; [|intros fig H; discriminate].
    split; [|reflexivity]. intros _.
    apply forallb_false in E as (tr & Htr & E).
    unfold by_condition in Htr.
    apply List.in_map_iff in Htr as (k & <- & _). cbn [trace_points] in E.
    apply forallb_false in E as (p & Hp & E).
    apply List.in_map_iff in Hp as (r & <- & Hr).
    unfold group in Hr. apply List.filter_In in Hr as [Hr _].
    apply List.Exists_exists. exists r. split; [exact Hr|].
    rewrite List.Forall_forall in Hyear. specialize (Hyear r Hr).
    cbn [point_of pt_size] in E.
    destruct (get model_year r) as [|z| | | |]; try discriminate.
    exists z. split; [reflexivity|]. simpl in E. apply Z.leb_gt in E. exact E.
Qed.

(** The scatter plot of a frame that [cleaning] has returned, all of whose
    rows name their condition by a string.  The chart is refused, with a
    [ValueError], exactly when a model year is negative.  Otherwise it has
    one trace for each condition of the frame, in the order in which the
    conditions first appear in it; the points of a trace are
    the rows of its condition, in the order of the rows: the abscissa is
    the odometer, an integer, the ordinate the price, the colour the
    condition, the size the model year, an integer that is not negative,
    and the hover cells are the model and the type. *)
Theorem scatter_of_cleaned_frame (pd io : string -> option Z)
    (h h' : gmap loc frame) (data l : loc) (t : frame) :
  h !! data = Some t ->
  cleaning pd io data h = (h', Return l) ->
  Forall (fun r => is_Str (get condition r) = true) t ->
  exists t',
    h' !! l = Some t'
    /\ (plot_scatter t' = Raise ValueError
        <-> Exists (fun r' => exists z, get model_year r' = Int z /\ z < 0) t')
    /\ forall fig,
         plot_scatter t' = Return fig ->
         List.NoDup (List.map trace_name (traces fig))
         /\ (forall k, In k (List.map trace_name (traces fig))
                       <-> In k (col condition t))
         /\ (forall pre k post,
               List.map trace_name (traces fig) = pre ++ k :: post ->
               exists a b, col condition t = a ++ k :: b
                           /\ forall x, In x a -> In x pre)
         /\ Forall
              (fun tr =>
                 trace_points tr
                 = List.map
                     (fun r' =>
                        mkPoint (get odometer r') (get price r')
                                (trace_name tr) (get model_year r')
                                [get model r'; get type r'])
                     (rows_with condition (trace_name tr) t')
                 /\ Forall (fun p => is_Int (pt_x p) = true
                                     /\ exists z, pt_size p = Int z /\ 0 <= z)
                           (trace_points tr))
              (traces fig).
Proof.
  intros Hdata Hrun Hcond.
  destruct (cleaning_Return_rows pd io _ _ _ _ _ Hdata Hrun)
    as (t' & Ht' & Hrows).
  assert (Forall (fun r' => is_Str (get condition r') = true
                            /\ is_Int (get odometer r') = true
                            /\ is_Int (get model_year r') = true) t')
    as Hshape.
  { clear - Hrows Hcond.
    induction Hrows as [|r r' t t' Hr _ IH]; [constructor|].
    inversion Hcond as [|? ? Hc Hrest]; subst.
    constructor; [|apply IH, Hrest].
    apply clean_row_Some in Hr
      as (_ & _ & Ho & _ & Hy & _ & _ & _ & Hc' & _).
    rewrite Hc'. split; [exact Hc|].
    split; eapply astype_int_cell_Some; eassumption. }
  assert (col condition t' = col condition t) as Hcol.
  { apply Forall2_col. eapply Forall2_impl; [exact Hrows|].
    intros r r' Hr.
    apply clean_row_Some in Hr as (_ & _ & _ & _ & _ & _ & _ & _ & Hc & _).
    exact Hc. }
  destruct (plot_scatter_traces t') as [Hraise Hfig].
  { eapply List.Forall_impl; [|exact Hshape]. intros r' H. apply H. }
  { eapply List.Forall_impl; [|exact Hshape]. intros r' H. apply H. }
  exists t'. split; [exact Ht'|]. split; [exact Hraise|].
  intros fig Hret. destruct (Hfig fig Hret) as (Hnd & Hin & Hord & Htr).
  split; [exact Hnd|]. split; [rewrite <- Hcol; exact Hin|].
  split; [rewrite <- Hcol; exact Hord|].
  eapply List.Forall_impl; [|exact Htr].
  intros tr [Hpts Hgroup]. rewrite Hpts.
  rewrite List.Forall_forall in Hgroup, Hshape. split.
  - apply List.map_ext_in. intros r' Hr'.
    destruct (Hgroup r' Hr') as [Hc _]. unfold point_of. rewrite Hc.
    reflexivity.
  - apply List.Forall_forall. intros p Hp.
    apply List.in_map_iff in Hp as (r' & <- & Hr').
    destruct (Hgroup r' Hr') as [_ Hsize].
    apply List.filter_In in Hr' as [Hr' _].
    destruct (Hshape r' Hr') as (_ & Ho & Hy).
    cbn [point_of pt_x pt_size]. split; [exact Ho|].
    destruct (get model_year r') as [|z| | | |]; try discriminate.
    exists z. split; [reflexivity|]. apply size_ok_Int, Hsize.
Qed.

Lemma scatter_of_cleaned_frame_witness :
  exists t',
    fst (sample_cleaning 0%nat (heap_of t_market)) !! 0%nat = Some t'
    /\ (plot_scatter t' = Raise ValueError
        <-> Exists (fun r' => exists z, get model_year r' = Int z /\ z < 0) t')
    /\ forall fig,
         plot_scatter t' = Return fig ->
         List.NoDup (List.map trace_name (traces fig))
         /\ (forall k, In k (List.map trace_name (traces fig))
                       <-> In k (col condition t_market))
         /\ (forall pre k post,
               List.map trace_name (traces fig) = pre ++ k :: post ->
               exists a b, col condition t_market = a ++ k :: b
                           /\ forall x, In x a -> In x pre)
         /\ Forall
              (fun tr =>
                 trace_points tr
                 = List.map
                     (fun r' =>
                        mkPoint (get odometer r') (get price r')
                                (trace_name tr) (get model_year r')
                                [get model r'; get type r'])
                     (rows_with condition (trace_name tr) t')
                 /\ Forall (fun p => is_Int (pt_x p) = true
                                     /\ exists z, pt_size p = Int z /\ 0 <= z)
                           (trace_points tr))
              (traces fig).
Proof.
  apply (scatter_of_cleaned_frame iso_date decimal_int (heap_of t_market) _
           0%nat 0%nat t_market).
  - vm_compute. reflexivity.
  - vm_compute. reflexivity.
  - repeat constructor.
Defined.

(** The traces of the three cleaned listings: the two of condition "good"
    together, then the one of condition "fair". *)
Example scatter_market :
  match plot_scatter
          (default [] (mapM (clean_row iso_date decimal_int) t_market)) with
  | Return fig =>
    List.map (fun tr => (trace_name tr, List.map pt_y (trace_points tr)))
             (traces fig)
  | Raise _ => []
  end
  = [(Str "good", [Int 100; Int 200]); (Str "fair", [Int 900])].
Proof. vm_compute. reflexivity. Qed.

(** *** Rows without a key *)

Lemma value_eqb_isna_l (v k : value) : isna v = true -> value_eqb v k = false.
Proof. intros H. unfold value_eqb, notna. rewrite H. reflexivity. Qed.

Lemma group_with_key (key : column) (k : value) (t : frame) :
  group key k (List.filter (fun r => notna (get key r)) t) = group key k t.
Proof.
  unfold group. induction t as [|r t IH]; simpl; [reflexivity|].
  unfold notna at 1. destruct (isna (get key r)) eqn:E; simpl.
  - rewrite (value_eqb_isna_l _ k E). exact IH.
  - destruct (value_eqb (get key r) k); [f_equal|]; exact IH.
Qed.

Lemma keys_with_key (key : column) (t : frame) :
  unique_sorted (col key (List.filter (fun r => notna (get key r)) t))
  = unique_sorted (col key t).
Proof.
  unfold unique_sorted. f_equal. unfold col.
  induction t as [|r t IH]; simpl; [reflexivity|].
  destruct (notna (get key r)) eqn:E; simpl; rewrite ?E; [f_equal|]; exact IH.
Qed.

Lemma aggregate_ext (fm : list value -> value) (key c : column)
    (t t' : frame) (keys : list value) :
  (forall k, mean fm (col c (group key k t'))
             = mean fm (col c (group key k t))) ->
  aggregate fm key c t' keys = aggregate fm key c t keys.
Proof.
  intros H. induction keys as [|k keys IH]; simpl; [reflexivity|].
  rewrite H, IH. reflexivity.
Qed.

Lemma groupby_mean_with_key (fm : list value -> value) (key c : column)
    (t : frame) :
  groupby_mean fm key c (List.filter (fun r => notna (get key r)) t)
  = groupby_mean fm key c t.
Proof.
  unfold groupby_mean. rewrite keys_with_key. apply aggregate_ext.
  intros k. rewrite group_with_key. reflexivity.
Qed.

(** The rows without a condition take no part in the chart of the mean
    price by condition, and the rows without a type none in the chart by
    type: without them the outcome is the same, chart or exception. *)
Theorem bar_charts_ignore_rows_without_key (float_mean : list value -> value)
    (t : frame) :
  plot_condition_mean float_mean
    (List.filter (fun r => notna (get condition r)) t)
  = plot_condition_mean float_mean t
  /\ plot_type_mean float_mean (List.filter (fun r => notna (get type r)) t)
     = plot_type_mean float_mean t.
Proof.
  unfold plot_condition_mean, plot_type_mean.
  rewrite !groupby_mean_with_key. split; reflexivity.
Qed.

Lemma bar_charts_ignore_rows_without_key_witness :
  plot_condition_mean sample_mean
    (List.filter (fun r => notna (get condition r)) t_missing_keys)
  = plot_condition_mean sample_mean t_missing_keys
  /\ plot_type_mean sample_mean
       (List.filter (fun r => notna (get type r)) t_missing_keys)
     = plot_type_mean sample_mean t_missing_keys.
Proof.
  apply (bar_charts_ignore_rows_without_key sample_mean t_missing_keys).
Defined.

(** The two charts of the five listings: the listing without condition
    counts for its type only, the listing without type for its condition
    only. *)
Example charts_with_missing_keys :
  plot_condition_mean sample_mean t_missing_keys
  = Return (mkBar [(Str "fair", Float 900); (Str "good", Float 200)] Vertical
                  "Precio promedio según condición del vehículo"
                  [(condition, "Condición"); (price, "Precio promedio (USD)")]
                  (Some "skyblue"))
  /\ plot_type_mean sample_mean t_missing_keys
     = Return (mkBar [(Str "SUV", Float 150); (Str "sedan", Float 700)]
                     Horizontal
                     "Precio promedio por tipo de vehículo"
                     [(type, "Tipo de vehículo");
                      (price, "Precio promedio (USD)")]
                     (Some "coral")).
Proof. vm_compute. split; reflexivity. Qed.

(** ** The page script *)

Section ScriptFacts.

Variable pd io : string -> option Z.
Variable fm : list value -> value.
Variable files : gmap string frame.
Variable clicked : string -> bool.

(** The load and the cleaning, then the page. *)
Lemma script_run (w : world) (t : frame) :
  files !! "../csv/vehicles_us.csv" = Some t ->
  script pd io fm files clicked w
  = match run_cleaning pd io t with
    | (t', Return _) =>
      draw_page fm clicked (fresh (dom (heap w)))
                (mkWorld (<[fresh (dom (heap w)) := t']> (heap w)) (page w))
    | (t', Raise e) =>
      (mkWorld (<[fresh (dom (heap w)) := t']> (heap w)) (page w),
       Abort (Uncaught e))
    end.
Proof.
  intros Hfile. unfold script. unfold sbind at 1. unfold read_csv.
  rewrite Hfile. unfold sbind at 1. unfold call. cbn [heap page].
  rewrite (cleaning_run pd io _ _ _
             (lookup_heap_insert (heap w) (fresh (dom (heap w))) t)).
  rewrite heap_insert_insert.
  destruct (run_cleaning pd io t) as [t' [[]|e]]; reflexivity.
Qed.

Ltac run_page :=
  unfold draw_page, sbind, st_title, st_write, st_button, build,
    st_plotly_chart, emit, sret;
  cbn [heap page].

(** With the listings file in place, a frame that can be cleaned, prices
    that are numbers and no model year that is negative once cleaned, a run
    of the script ends normally: the frame loaded is left cleaned, and the
    page receives, in this order, the title, the text, and the three
    buttons, each followed by its chart if and only if it was clicked;
    every chart is the one its builder returns on the cleaned frame. *)
Theorem script_page (w : world) (t t' : frame) :
  files !! "../csv/vehicles_us.csv" = Some t ->
  mapM (clean_row pd io) t = Some t' ->
  Forall (fun r => numeric_or_missing (get price r) = true) t ->
  Forall (fun r' => exists z, get model_year r' = Int z /\ 0 <= z) t' ->
  exists f1 f2 f3,
    plot_scatter t' = Return f1
    /\ plot_condition_mean fm t' = Return f2
    /\ plot_type_mean fm t' = Return f3
    /\ script pd io fm files clicked w
       = (mkWorld
            (<[fresh (dom (heap w)) := t']> (heap w))
            (page w
             ++ [Title "📊 Análisis de Datos de Vehículos";
                 Text "Dataset procesado y limpio listo para análisis visual."]
             ++ (Button "Mostrar gráfica de dispersión"
                 :: if clicked "Mostrar gráfica de dispersión"
                    then [PlotlyChart (ScatterFigure f1) true] else [])
             ++ (Button "Mostrar gráfica de precio promedio por condición"
                 :: if clicked
                         "Mostrar gráfica de precio promedio por condición"
                    then [PlotlyChart (BarFigure f2) true] else [])
             ++ (Button "Mostrar gráfica de precio promedio por tipo"
                 :: if clicked "Mostrar gráfica de precio promedio por tipo"
                    then [PlotlyChart (BarFigure f3) true] else [])),
          Done tt).
Proof.
  intros Hfile Hclean Hnum Hyear.
  assert (Forall (fun r => numeric_or_missing (get price r) = true) t')
    as Hnum'.
  { apply mapM_Some in Hclean. clear - Hclean Hnum.
    induction Hclean as [|r r' t t' Hr _ IH]; [constructor|].
    inversion Hnum as [|? ? Hp Hrest]; subst. constructor; [|apply IH, Hrest].
    apply clean_row_Some in Hr as (_ & _ & _ & _ & _ & _ & _ & Hprice & _).
    rewrite Hprice. exact Hp. }
  destruct (groupby_mean_spec fm condition t' Hnum') as (bs2 & Hbs2 & _).
  destruct (groupby_mean_spec fm type t' Hnum') as (bs3 & Hbs3 & _).
  destruct (plot_scatter_Return t') as (f1 & Hf1 & _).
  { eapply List.Forall_impl; [|exact Hyear]. intros r' H.
    apply size_ok_year, H. }
  destruct (plot_condition_mean fm t') as [f2|] eqn:Hf2;
    [|unfold plot_condition_mean in Hf2; rewrite Hbs2 in Hf2; discriminate].
  destruct (plot_type_mean fm t') as [f3|] eqn:Hf3;
    [|unfold plot_type_mean in Hf3; rewrite Hbs3 in Hf3; discriminate].
  exists f1, f2, f3. split; [exact Hf1|]. repeat (split; [reflexivity|]).
  rewrite (script_run w t Hfile).
  rewrite (proj2 (run_cleaning_Return pd io t t') Hclean).
  pose proof (lookup_heap_insert (heap w) (fresh (dom (heap w))) t') as Hdata.
  run_page.
  destruct (clicked "Mostrar gráfica de dispersión"),
    (clicked "Mostrar gráfica de precio promedio por condición"),
    (clicked "Mostrar gráfica de precio promedio por tipo");
    repeat (progress (rewrite ?Hdata, ?Hf1, ?Hf2, ?Hf3; cbn [heap page]));
    repeat rewrite <- List.app_assoc; reflexivity.
Qed.

(** As long as no button has been clicked no chart is built: whatever the
    prices are, a run on a frame that can be cleaned ends normally with the
    title, the text and the three buttons on the page. *)
Theorem script_without_click (w : world) (t t' : frame) :
  files !! "../csv/vehicles_us.csv" = Some t ->
  mapM (clean_row pd io) t = Some t' ->
  (forall label, clicked label = false) ->
  script pd io fm files clicked w
  = (mkWorld
       (<[fresh (dom (heap w)) := t']> (heap w))
       (page w
        ++ [Title "📊 Análisis de Datos de Vehículos";
            Text "Dataset procesado y limpio listo para análisis visual.";
            Button "Mostrar gráfica de dispersión";
            Button "Mostrar gráfica de precio promedio por condición";
            Button "Mostrar gráfica de precio promedio por tipo"]),
     Done tt).
Proof.
  intros Hfile Hclean Hno.
  rewrite (script_run w t Hfile).
  rewrite (proj2 (run_cleaning_Return pd io t t') Hclean).
  run_page. rewrite !Hno. cbn [heap page].
  repeat rewrite <- List.app_assoc. reflexivity.
Qed.

(** A run that aborts before the page is drawn.  Without the listings file
    the run aborts with [FileNotFoundError] and nothing has changed.  With
    the file, on a frame that cannot be cleaned, the run aborts with the
    exception of the cleaning, the parse error or the coercion error, and
    the page is left as it was: not even the title is drawn. *)
Theorem script_aborts_before_page (w : world) :
  files !! "../csv/vehicles_us.csv" = None
  \/ (exists t : frame, files !! "../csv/vehicles_us.csv" = Some t
                        /\ mapM (clean_row pd io) t = None) ->
  exists w' e,
    script pd io fm files clicked w = (w', Abort e)
    /\ page w' = page w
    /\ (files !! "../csv/vehicles_us.csv" = None ->
        e = FileNotFoundError /\ w' = w)
    /\ (files !! "../csv/vehicles_us.csv" <> None ->
        e = Uncaught ParseError \/ e = Uncaught TypeCoercionError).
Proof.
  intros [Hfile|(t & Hfile & Hclean)].
  - exists w, FileNotFoundError. unfold script, sbind, read_csv.
    rewrite Hfile. split; [reflexivity|]. split; [reflexivity|].
    split; [auto|]. intros H. contradiction.
  - rewrite (script_run w t Hfile).
    destruct (run_cleaning pd io t) as [t' [[]|e']] eqn:Erun.
    + apply run_cleaning_Return in Erun. rewrite Erun in Hclean.
      discriminate.
    + eexists. exists (Uncaught e'). split; [reflexivity|].
      split; [reflexivity|].
      split.
      { intros H. pose proof (eq_trans (eq_sym H) Hfile). discriminate. }
      intros _. unfold run_cleaning in Erun.
      destruct (typed_outcomes pd io (refilled (filled t))) as [E|[E|E]];
        rewrite Erun in E; simpl in E; inversion E; auto.
Qed.

End ScriptFacts.

Lemma script_page_witness :
  exists f1 f2 f3,
    plot_scatter (default [] (mapM (clean_row iso_date decimal_int) t_demo))
    = Return f1
    /\ plot_condition_mean sample_mean
         (default [] (mapM (clean_row iso_date decimal_int) t_demo))
       = Return f2
    /\ plot_type_mean sample_mean
         (default [] (mapM (clean_row iso_date decimal_int) t_demo))
       = Return f3
    /\ script iso_date decimal_int sample_mean (listings_file t_demo)
              (String.eqb "Mostrar gráfica de precio promedio por tipo") start
       = (mkWorld
            (<[fresh (dom (heap start)) :=
                 default [] (mapM (clean_row iso_date decimal_int) t_demo)]>
               (heap start))
            (page start
             ++ [Title "📊 Análisis de Datos de Vehículos";
                 Text "Dataset procesado y limpio listo para análisis visual."]
             ++ (Button "Mostrar gráfica de dispersión"
                 :: if String.eqb "Mostrar gráfica de precio promedio por tipo"
                                  "Mostrar gráfica de dispersión"
                    then [PlotlyChart (ScatterFigure f1) true] else [])
             ++ (Button "Mostrar gráfica de precio promedio por condición"
                 :: if String.eqb
                         "Mostrar gráfica de precio promedio por tipo"
                         "Mostrar gráfica de precio promedio por condición"
                    then [PlotlyChart (BarFigure f2) true] else [])
             ++ (Button "Mostrar gráfica de precio promedio por tipo"
                 :: if String.eqb "Mostrar gráfica de precio promedio por tipo"
                                  "Mostrar gráfica de precio promedio por tipo"
                    then [PlotlyChart (BarFigure f3) true] else [])),
          Done tt).
Proof.
  apply (script_page iso_date decimal_int sample_mean (listings_file t_demo)
           (String.eqb "Mostrar gráfica de precio promedio por tipo")
           start t_demo).
  - vm_compute. reflexivity.
  - vm_compute. reflexivity.
  - repeat constructor.
  - vm_compute. constructor; [|constructor; [|constructor]].
    + exists 2011. split; [reflexivity|discriminate].
    + exists 0. split; [reflexivity|discriminate].
Defined.

Lemma script_without_click_witness :
  script iso_date decimal_int sample_mean (listings_file t_demo)
         (fun _ => false) start
  = (mkWorld
       (<[fresh (dom (heap start)) :=
            default [] (mapM (clean_row iso_date decimal_int) t_demo)]>
          (heap start))
       (page start
        ++ [Title "📊 Análisis de Datos de Vehículos";
            Text "Dataset procesado y limpio listo para análisis visual.";
            Button "Mostrar gráfica de dispersión";
            Button "Mostrar gráfica de precio promedio por condición";
            Button "Mostrar gráfica de precio promedio por tipo"]),
     Done tt).
Proof.
  apply (script_without_click iso_date decimal_int sample_mean
           (listings_file t_demo) (fun _ => false) start t_demo).
  - vm_compute. reflexivity.
  - vm_compute. reflexivity.
  - intros label. reflexivity.
Defined.

Lemma script_aborts_before_page_witness :
  exists w' e,
    script iso_date decimal_int sample_mean (listings_file t_bad_date)
           (fun _ => true) start
    = (w', Abort e)
    /\ page w' = page start
    /\ (listings_file t_bad_date !! "../csv/vehicles_us.csv" = None ->
        e = FileNotFoundError /\ w' = start)
    /\ (listings_file t_bad_date !! "../csv/vehicles_us.csv" <> None ->
        e = Uncaught ParseError \/ e = Uncaught TypeCoercionError).
Proof.
  apply (script_aborts_before_page iso_date decimal_int sample_mean
           (listings_file t_bad_date) (fun _ => true) start).
  right. exists t_bad_date. split; vm_compute; reflexivity.
Defined.

(** The runs of the three sample files that abort, and the one click that
    makes a run on a cleaned frame abort: the scatter chart of a listing
    with a negative model year. *)
Example script_aborts :
  script iso_date decimal_int sample_mean ∅ (fun _ => true) start
  = (start, Abort FileNotFoundError)
  /\ snd (script iso_date decimal_int sample_mean (listings_file t_bad_date)
                 (fun _ => true) start)
     = Abort (Uncaught ParseError)
  /\ snd (script iso_date decimal_int sample_mean (listings_file t_no_model)
                 (fun _ => true) start)
     = Abort (Uncaught TypeCoercionError)
  /\ snd (script iso_date decimal_int sample_mean
                 (listings_file t_negative_year)
                 (String.eqb "Mostrar gráfica de dispersión") start)
     = Abort (Uncaught ValueError).
Proof. vm_compute. repeat split; reflexivity. Qed.
